(** * InteractiveForm: the tabbed form component of
      pi-agent/extensions/interactive-form/form-component.ts

    The component is a keystroke-driven state machine.  It is embedded
    here as a record of its private fields together with pure functions
    for its constructor and its public methods ([handleInput], [render],
    [invalidate], the [focused] setter) and for the abort listener that
    the constructor installs.

    Conventions of the embedding.
    - A JavaScript [Record<string, X>] used as a dictionary is a
      [gmap string X]; a lookup that yields [undefined] is [None].
      (The one key for which a plain JS object is not a dictionary,
      [__proto__], is outside the model.)
    - Numbers that the component computes with are integers ([Z]).
    - Strings are byte strings; [trim] and [parseInt] recognise the
      ASCII white space characters.
    - An exception is an explicit [Throw] result.  Dereferencing
      [undefined] is a [TypeError]; [String.prototype.repeat] with a
      negative count is a [RangeError].
    - The effects on the host are logged in the state: each call of the
      completion callback [done] appends its argument to [doneCalls],
      each [tui.requestRender()] increments [renderRequests].
    - Everything imported from the host packages (the [Input] widget,
      [matchesKey], the theme, [truncateToWidth]) is a field of the
      class [Host]; these functions are pure and return normally. *)

From Stdlib Require Import ZArith Ascii String DecimalString Lia.
From stdpp Require Import base option list strings gmap.

Local Open Scope string_scope.
Local Open Scope Z_scope.

(** ** JavaScript primitives used by the component *)

Inductive JsError := TypeError | RangeError.

Inductive result (A : Type) : Type :=
| Ok (a : A)
| Throw (e : JsError).
Arguments Ok {A} a.
Arguments Throw {A} e.

#[global] Instance result_bind : MBind result := λ A B k r,
  match r with
  | Ok a => k a
  | Throw e => Throw e
  end.

(** [o.m] where [o] may be [undefined]: a [TypeError] in that case. *)
Definition deref {A : Type} (o : option A) : result A :=
  match o with
  | Some a => Ok a
  | None => Throw TypeError
  end.

(** [arr[i]] for a number [i]: [undefined] out of range. *)
Definition js_index {A : Type} (l : list A) (i : Z) : option A :=
  if i <? 0 then None else l !! Z.to_nat i.

Definition js_length {A : Type} (l : list A) : Z := Z.of_nat (length l).

(** Truthiness of a string: the empty string is falsy. *)
Definition truthy_string (s : string) : bool :=
  match s with
  | EmptyString => false
  | String _ _ => true
  end.

(** Truthiness of an optional string ([undefined] is falsy). *)
Definition truthy_ostring (o : option string) : bool :=
  match o with
  | Some s => truthy_string s
  | None => false
  end.

(** Truthiness of an optional boolean. *)
Definition truthy_obool (o : option bool) : bool :=
  match o with
  | Some b => b
  | None => false
  end.

Definition isWhiteSpace (c : ascii) : bool :=
  match nat_of_ascii c with
  | 9%nat | 10%nat | 11%nat | 12%nat | 13%nat | 32%nat => true
  | _ => false
  end.

Fixpoint trimStart (s : string) : string :=
  match s with
  | EmptyString => EmptyString
  | String c r => if isWhiteSpace c then trimStart r else s
  end.

Fixpoint trimEnd (s : string) : string :=
  match s with
  | EmptyString => EmptyString
  | String c r =>
      match trimEnd r with
      | EmptyString => if isWhiteSpace c then EmptyString else String c EmptyString
      | r' => String c r'
      end
  end.

(** [String.prototype.trim]. *)
Definition trim (s : string) : string := trimEnd (trimStart s).

Definition digitValue (c : ascii) : option Z :=
  let n := Z.of_nat (nat_of_ascii c) in
  if (48 <=? n) && (n <=? 57) then Some (n - 48) else None.

(** The longest prefix of decimal digits, as a number; [acc] is [None]
    as long as no digit has been read. *)
Fixpoint parseDigits (s : string) (acc : option Z) : option Z :=
  match s with
  | EmptyString => acc
  | String c r =>
      match digitValue c with
      | Some d => parseDigits r (Some (10 * default 0 acc + d))
      | None => acc
      end
  end.

(** [parseInt(s, 10)]; [None] is [NaN].  The value is exact; the
    component only compares it with list lengths, for which the
    rounding of very long digit strings makes no difference. *)
Definition parseInt (s : string) : option Z :=
  match trimStart s with
  | String "-"%char r => Z.opp <$> parseDigits r None
  | String "+"%char r => parseDigits r None
  | r => parseDigits r None
  end.

(** [arr.indexOf(x)] on an array of strings; [-1] when absent. *)
Fixpoint indexOf (l : list string) (x : string) : Z :=
  match l with
  | [] => -1
  | y :: r =>
      if String.eqb y x then 0
      else let i := indexOf r x in if i <? 0 then -1 else i + 1
  end.

(** [arr.splice(idx, 1)] for [0 <= idx]. *)
Definition splice1 (l : list string) (idx : Z) : list string :=
  (take (Z.to_nat idx) l ++ drop (S (Z.to_nat idx)) l)%list.

(** [s.repeat(n)]. *)
Fixpoint repeat_nat (s : string) (n : nat) : string :=
  match n with
  | O => ""
  | S k => s +:+ repeat_nat s k
  end.

Definition js_repeat (s : string) (n : Z) : result string :=
  if n <? 0 then Throw RangeError else Ok (repeat_nat s (Z.to_nat n)).

(** Template-literal rendering of an integer. *)
Definition string_of_Z (n : Z) : string := NilZero.string_of_int (Z.to_int n).

(** [arr.join(sep)]. *)
Fixpoint join (sep : string) (l : list string) : string :=
  match l with
  | [] => ""
  | [x] => x
  | x :: r => x +:+ sep +:+ join sep r
  end.

(** ** Data model (index.ts) *)

Inductive SelectionType := single | multiple.

Record OptionConfig := {
  value : string;
  label : string;
  description : option string;
}.

Record TabConfig := {
  id : string;
  tab_label : string;
  question : string;
  options : list OptionConfig;
  selectionType : SelectionType;
  allowCustom : bool;
}.

Record TabResponse := {
  selected : list string;
  customText : option string;
}.

Record FormResult := {
  result_responses : gmap string TabResponse;
}.

(** ** The host interface (pi-tui, pi-coding-agent) *)

(** The logical keys the component asks [matchesKey] about. *)
Inductive Key :=
| Key_escape | Key_enter | Key_tab | Key_right | Key_shift_tab
| Key_left | Key_up | Key_down | Key_space.

Class Host := {
  (** the text-input widget *)
  Input : Type;
  newInput : Input;
  getText : Input → string;
  input_handleInput : string → Input → Input;
  input_set_focused : bool → Input → Input;
  input_render : Input → Z → list string;
  (** key normalisation *)
  matchesKey : string → Key → bool;
  (** theme *)
  fg : string → string → string;
  bg : string → string → string;
  bold : string → string;
  (** text utilities *)
  truncateToWidth : string → Z → string;
}.

(** ** The component *)

Section Component.
Context `{Host}.

Record InteractiveForm := {
  title : string;
  tabs : list TabConfig;
  currentTabIndex : Z;
  responses : gmap string TabResponse;
  optionCursor : gmap string Z;
  customInputMode : gmap string bool;
  customInputs : gmap string Input;
  cachedWidth : option Z;
  cachedLines : option (list string);
  _focused : bool;
  (** log of the host effects *)
  doneCalls : list (option FormResult);
  renderRequests : nat;
}.

Definition set_currentTabIndex (i : Z) (f : InteractiveForm) : InteractiveForm :=
  {| title := title f; tabs := tabs f; currentTabIndex := i;
     responses := responses f; optionCursor := optionCursor f;
     customInputMode := customInputMode f; customInputs := customInputs f;
     cachedWidth := cachedWidth f; cachedLines := cachedLines f;
     _focused := _focused f; doneCalls := doneCalls f;
     renderRequests := renderRequests f |}.

Definition set_responses (m : gmap string TabResponse) (f : InteractiveForm) : InteractiveForm :=
  {| title := title f; tabs := tabs f; currentTabIndex := currentTabIndex f;
     responses := m; optionCursor := optionCursor f;
     customInputMode := customInputMode f; customInputs := customInputs f;
     cachedWidth := cachedWidth f; cachedLines := cachedLines f;
     _focused := _focused f; doneCalls := doneCalls f;
     renderRequests := renderRequests f |}.

Definition set_optionCursor (m : gmap string Z) (f : InteractiveForm) : InteractiveForm :=
  {| title := title f; tabs := tabs f; currentTabIndex := currentTabIndex f;
     responses := responses f; optionCursor := m;
     customInputMode := customInputMode f; customInputs := customInputs f;
     cachedWidth := cachedWidth f; cachedLines := cachedLines f;
     _focused := _focused f; doneCalls := doneCalls f;
     renderRequests := renderRequests f |}.

Definition set_customInputMode (m : gmap string bool) (f : InteractiveForm) : InteractiveForm :=
  {| title := title f; tabs := tabs f; currentTabIndex := currentTabIndex f;
     responses := responses f; optionCursor := optionCursor f;
     customInputMode := m; customInputs := customInputs f;
     cachedWidth := cachedWidth f; cachedLines := cachedLines f;
     _focused := _focused f; doneCalls := doneCalls f;
     renderRequests := renderRequests f |}.

Definition set_customInputs (m : gmap string Input) (f : InteractiveForm) : InteractiveForm :=
  {| title := title f; tabs := tabs f; currentTabIndex := currentTabIndex f;
     responses := responses f; optionCursor := optionCursor f;
     customInputMode := customInputMode f; customInputs := m;
     cachedWidth := cachedWidth f; cachedLines := cachedLines f;
     _focused := _focused f; doneCalls := doneCalls f;
     renderRequests := renderRequests f |}.

Definition set_cache (w : option Z) (l : option (list string)) (f : InteractiveForm) : InteractiveForm :=
  {| title := title f; tabs := tabs f; currentTabIndex := currentTabIndex f;
     responses := responses f; optionCursor := optionCursor f;
     customInputMode := customInputMode f; customInputs := customInputs f;
     cachedWidth := w; cachedLines := l;
     _focused := _focused f; doneCalls := doneCalls f;
     renderRequests := renderRequests f |}.

Definition set__focused (b : bool) (f : InteractiveForm) : InteractiveForm :=
  {| title := title f; tabs := tabs f; currentTabIndex := currentTabIndex f;
     responses := responses f; optionCursor := optionCursor f;
     customInputMode := customInputMode f; customInputs := customInputs f;
     cachedWidth := cachedWidth f; cachedLines := cachedLines f;
     _focused := b; doneCalls := doneCalls f;
     renderRequests := renderRequests f |}.

(** [this.done(r)] *)
Definition call_done (r : option FormResult) (f : InteractiveForm) : InteractiveForm :=
  {| title := title f; tabs := tabs f; currentTabIndex := currentTabIndex f;
     responses := responses f; optionCursor := optionCursor f;
     customInputMode := customInputMode f; customInputs := customInputs f;
     cachedWidth := cachedWidth f; cachedLines := cachedLines f;
     _focused := _focused f; doneCalls := (doneCalls f ++ [r])%list;
     renderRequests := renderRequests f |}.

(** [this.tui.requestRender()] *)
Definition requestRender (f : InteractiveForm) : InteractiveForm :=
  {| title := title f; tabs := tabs f; currentTabIndex := currentTabIndex f;
     responses := responses f; optionCursor := optionCursor f;
     customInputMode := customInputMode f; customInputs := customInputs f;
     cachedWidth := cachedWidth f; cachedLines := cachedLines f;
     _focused := _focused f; doneCalls := doneCalls f;
     renderRequests := S (renderRequests f) |}.

(** [invalidate()] *)
Definition invalidate (f : InteractiveForm) : InteractiveForm :=
  set_cache None None f.

(** The pair of calls that ends every mutating branch of [handleInput]. *)
Definition refresh (f : InteractiveForm) : InteractiveForm :=
  requestRender (invalidate f).

(** The constructor's loop over the tabs. *)
Fixpoint init_tabs (ts : list TabConfig) (f : InteractiveForm) : InteractiveForm :=
  match ts with
  | [] => f
  | tab :: r =>
      init_tabs r
        (set_customInputs (<[id tab := newInput]> (customInputs f))
          (set_customInputMode (<[id tab := false]> (customInputMode f))
            (set_optionCursor (<[id tab := 0]> (optionCursor f))
              (set_responses
                 (<[id tab := {| selected := []; customText := None |}]> (responses f))
                 f))))
  end.

(** [new InteractiveForm(tui, theme, title, tabs, done, signal)] *)
Definition new_form (ttl : string) (ts : list TabConfig) : InteractiveForm :=
  init_tabs ts
    {| title := ttl; tabs := ts; currentTabIndex := 0;
       responses := ∅; optionCursor := ∅; customInputMode := ∅;
       customInputs := ∅; cachedWidth := None; cachedLines := None;
       _focused := false; doneCalls := []; renderRequests := 0%nat |}.

(** The listener installed on the abort signal. *)
Definition on_abort (f : InteractiveForm) : InteractiveForm :=
  call_done None f.

Definition optionCount (tab : TabConfig) : Z :=
  js_length (options tab) + (if allowCustom tab then 1 else 0).

(** [handleInput(data)] *)
Definition handleInput (data : string) (f : InteractiveForm) : result InteractiveForm :=
  match js_index (tabs f) (currentTabIndex f) with
  | None => Ok f
  | Some currentTab =>
    let tabId := id currentTab in
    let isCustomMode := truthy_obool (customInputMode f !! tabId) in
    let isSubmitTab := currentTabIndex f =? js_length (tabs f) in
    if isCustomMode && negb isSubmitTab then
      if matchesKey data Key_escape then
        Ok (refresh (set_customInputMode (<[tabId := false]> (customInputMode f)) f))
      else if matchesKey data Key_enter then
        input ← deref (customInputs f !! tabId);
        let inputText := trim (getText input) in
        let f1 :=
          if truthy_string inputText then
            set_responses
              (<[tabId := {| selected := []; customText := Some inputText |}]> (responses f)) f
          else f in
        Ok (refresh (set_customInputMode (<[tabId := false]> (customInputMode f1)) f1))
      else
        input ← deref (customInputs f !! tabId);
        Ok (refresh (set_customInputs
                       (<[tabId := input_handleInput data input]> (customInputs f)) f))
    else if matchesKey data Key_escape then
      Ok (call_done None f)
    else if matchesKey data Key_tab || matchesKey data Key_right then
      Ok (refresh (set_currentTabIndex
                     (Z.min (currentTabIndex f + 1) (js_length (tabs f))) f))
    else if matchesKey data Key_shift_tab || matchesKey data Key_left then
      Ok (refresh (set_currentTabIndex (Z.max (currentTabIndex f - 1) 0) f))
    else if isSubmitTab then
      if matchesKey data Key_enter then
        Ok (call_done (Some {| result_responses := responses f |}) f)
      else Ok f
    else
      let cursor := default 0 (optionCursor f !! tabId) in
      if matchesKey data Key_up then
        Ok (refresh (set_optionCursor
                       (<[tabId := Z.max 0 (cursor - 1)]> (optionCursor f)) f))
      else if matchesKey data Key_down then
        Ok (refresh (set_optionCursor
                       (<[tabId := Z.min (optionCount currentTab - 1) (cursor + 1)]>
                          (optionCursor f)) f))
      else if matchesKey data Key_enter || matchesKey data Key_space then
        let isCustomOption :=
          allowCustom currentTab && (cursor =? js_length (options currentTab)) in
        if isCustomOption then
          let f1 := set_customInputMode (<[tabId := true]> (customInputMode f)) f in
          input ← deref (customInputs f1 !! tabId);
          Ok (refresh (set_customInputs
                         (<[tabId := input_set_focused (_focused f1) input]>
                            (customInputs f1)) f1))
        else
          match js_index (options currentTab) cursor with
          | None => Ok f
          | Some option =>
            response ← deref (responses f !! tabId);
            match selectionType currentTab with
            | single =>
                Ok (refresh (set_responses
                               (<[tabId := {| selected := [value option];
                                              customText := None |}]> (responses f)) f))
            | multiple =>
                let idx := indexOf (selected response) (value option) in
                let selected' :=
                  if 0 <=? idx then splice1 (selected response) idx
                  else (selected response ++ [value option])%list in
                Ok (refresh (set_responses
                               (<[tabId := {| selected := selected';
                                              customText := None |}]> (responses f)) f))
            end
          end
      else
        match parseInt data with
        | None => Ok f
        | Some numKey =>
          if (1 <=? numKey) && (numKey <=? optionCount currentTab) then
            let optionIndex := numKey - 1 in
            let isCustomOption :=
              allowCustom currentTab && (optionIndex =? js_length (options currentTab)) in
            f2 ←
              (if isCustomOption then
                 let f1 := set_customInputMode (<[tabId := true]> (customInputMode f)) f in
                 input ← deref (customInputs f1 !! tabId);
                 Ok (set_customInputs
                       (<[tabId := input_set_focused (_focused f1) input]>
                          (customInputs f1)) f1)
               else
                 match js_index (options currentTab) optionIndex with
                 | None => Ok f
                 | Some option =>
                   response ← deref (responses f !! tabId);
                   match selectionType currentTab with
                   | single =>
                       Ok (set_responses
                             (<[tabId := {| selected := [value option];
                                            customText := None |}]> (responses f)) f)
                   | multiple =>
                       let idx := indexOf (selected response) (value option) in
                       let selected' :=
                         if 0 <=? idx then splice1 (selected response) idx
                         else (selected response ++ [value option])%list in
                       Ok (set_responses
                             (<[tabId := {| selected := selected';
                                            customText := None |}]> (responses f)) f)
                   end
                 end);
            Ok (refresh (set_optionCursor
                           (<[tabId := optionIndex]> (optionCursor f2)) f2))
          else Ok f
        end
  end.

(** The setter of the [focused] property. *)
Definition set_focused (v : bool) (f : InteractiveForm) : InteractiveForm :=
  let f1 := set__focused v f in
  match js_index (tabs f1) (currentTabIndex f1) with
  | None => f1
  | Some tab =>
      let tabId := id tab in
      if truthy_string tabId && truthy_obool (customInputMode f1 !! tabId) then
        match customInputs f1 !! tabId with
        | Some input =>
            set_customInputs (<[tabId := input_set_focused v input]> (customInputs f1)) f1
        | None => f1
        end
      else f1
  end.

(** [hasResponse(tabId)] *)
Definition hasResponse (tabId : string) (f : InteractiveForm) : bool :=
  match responses f !! tabId with
  | Some response =>
      (0 <? js_length (selected response)) || truthy_ostring (customText response)
  | None => false
  end.

(** The loop of [renderTabHeader] over [allTabs]; [i] is the loop
    index and [n] is [allTabs.length]. *)
Fixpoint tabHeaderLoop (f : InteractiveForm) (allTabs : list string) (i n : Z)
  : list string :=
  match allTabs with
  | [] => []
  | lbl :: rest =>
      let isActive := i =? currentTabIndex f in
      let hasResp :=
        (i <? js_length (tabs f)) &&
        match js_index (tabs f) i with
        | Some tab => hasResponse (id tab) f
        | None => false
        end in
      let tabStr :=
        if isActive then bg "selectedBg" (fg "accent" (" " +:+ lbl +:+ " "))
        else if i =? js_length (tabs f) then " " +:+ fg "success" "✓" +:+ " " +:+ lbl +:+ " "
        else if hasResp then " " +:+ fg "success" "✓" +:+ " " +:+ fg "muted" lbl +:+ " "
        else " " +:+ fg "dim" "○" +:+ " " +:+ fg "muted" lbl +:+ " " in
      (tabStr :: (if i <? n - 1 then [fg "border" "│"] else [])
         ++ tabHeaderLoop f rest (i + 1) n)%list
  end.

(** [renderTabHeader(width)] *)
Definition renderTabHeader (width : Z) (f : InteractiveForm) : string :=
  let allTabs := (map tab_label (tabs f) ++ ["Submit"])%list in
  join ""
    ((if 0 <? currentTabIndex f then fg "muted" "← " else "  ")
       :: tabHeaderLoop f allTabs 0 (js_length allTabs)
       ++ [if currentTabIndex f <? js_length (tabs f) then fg "muted" " →" else "  "])%list.

(** The answer shown for one tab in the summary view. *)
Definition summaryAnswer (tab : TabConfig) (response : option TabResponse) : string :=
  match response with
  | Some r =>
      if truthy_ostring (customText r) then default "" (customText r)
      else if 0 <? js_length (selected r) then
        join ", "
          (map (λ val,
                  match List.find (λ o, String.eqb (value o) val) (options tab) with
                  | Some opt => label opt
                  | None => val
                  end)
               (selected r))
      else "(no selection)"
  | None => "(no selection)"
  end.

Definition summaryLine (width : Z) (f : InteractiveForm) (tab : TabConfig) : string :=
  truncateToWidth
    ("  " +:+ fg "muted" (tab_label tab +:+ ":") +:+ " "
       +:+ summaryAnswer tab (responses f !! id tab)) width.

Definition checkbox (st : SelectionType) (checked : bool) : string :=
  match st with
  | single => if checked then fg "success" "(•)" else fg "muted" "( )"
  | multiple => if checked then fg "success" "[✓]" else fg "muted" "[ ]"
  end.

(** The body of [currentTab.options.forEach((opt, idx) => ...)]. *)
Fixpoint optionLines (width : Z) (currentTab : TabConfig) (response : option TabResponse)
    (cursor : Z) (isCustomMode : bool) (opts : list OptionConfig) (idx : Z)
  : list string :=
  match opts with
  | [] => []
  | opt :: rest =>
      let isSelected :=
        match response with
        | Some r => existsb (String.eqb (value opt)) (selected r)
        | None => false
        end in
      let isCursor := (idx =? cursor) && negb isCustomMode in
      let prefix := if isCursor then fg "accent" "› " else "  " in
      let num := fg "dim" (string_of_Z (idx + 1) +:+ ".") in
      let lbl := if isCursor then fg "accent" (label opt) else label opt in
      (truncateToWidth
         (prefix +:+ num +:+ " " +:+ checkbox (selectionType currentTab) isSelected
            +:+ " " +:+ lbl) width
       :: (if truthy_ostring (description opt) then
             [truncateToWidth
                ("       " +:+ fg "muted" (default "" (description opt))) width]
           else [])
       ++ optionLines width currentTab response cursor isCustomMode rest (idx + 1))%list
  end.

Definition quote : string := String (ascii_of_nat 34) EmptyString.

(** The custom-entry slot of the question view. *)
Definition customSlotLines (width : Z) (f : InteractiveForm) (currentTab : TabConfig)
    (response : option TabResponse) (cursor : Z) (isCustomMode : bool)
  : result (list string) :=
  if allowCustom currentTab then
    let customIdx := js_length (options currentTab) in
    let isCursor := (customIdx =? cursor) && negb isCustomMode in
    let hasCustom :=
      match response with
      | Some r => truthy_ostring (customText r)
      | None => false
      end in
    let prefix := if isCursor then fg "accent" "› " else "  " in
    let num := fg "dim" (string_of_Z (customIdx + 1) +:+ ".") in
    let lbl := if isCursor then fg "accent" "Type something" else "Type something" in
    let slot :=
      truncateToWidth
        (prefix +:+ num +:+ " " +:+ checkbox (selectionType currentTab) hasCustom
           +:+ " " +:+ lbl) width in
    if isCustomMode then
      input ← deref (customInputs f !! id currentTab);
      Ok ([slot; ""]
            ++ map (λ line, "    " +:+ line) (input_render input (width - 4))
            ++ [truncateToWidth
                  ("    " +:+ fg "dim" "Enter to confirm • Esc to cancel") width])%list
    else if hasCustom then
      Ok [slot;
          truncateToWidth
            ("       " +:+ fg "muted"
               (quote +:+ default "" (response ≫= customText) +:+ quote)) width]
    else Ok [slot]
  else Ok [].

(** The lines [render] computes when the cache does not apply. *)
Definition renderLines (width : Z) (f : InteractiveForm) : result (list string) :=
  border ← js_repeat "─" width;
  let top := [fg "border" border; renderTabHeader width f; fg "border" border] in
  content ←
    (if currentTabIndex f =? js_length (tabs f) then
       Ok ([""; fg "accent" (bold "  Summary - Review your responses:"); ""]
             ++ map (summaryLine width f) (tabs f)
             ++ [""; fg "success" "  Press Enter to submit"])%list
     else
       match js_index (tabs f) (currentTabIndex f) with
       | None => Ok []
       | Some currentTab =>
           let response := responses f !! id currentTab in
           let cursor := default 0 (optionCursor f !! id currentTab) in
           let isCustomMode := truthy_obool (customInputMode f !! id currentTab) in
           custom ← customSlotLines width f currentTab response cursor isCustomMode;
           Ok ([""; truncateToWidth ("  " +:+ fg "accent" (bold (question currentTab))) width; ""]
                 ++ optionLines width currentTab response cursor isCustomMode
                      (options currentTab) 0
                 ++ custom)%list
       end);
  Ok (top ++ content
        ++ [""; fg "dim" "  ←→/Tab: navigate tabs • ↑↓: select option • Enter/Space: toggle • Esc: cancel";
            fg "border" border])%list.

(** [render(width)]: the returned lines (or the exception) and the
    component afterwards.  An exception leaves every field as it was. *)
Definition render (width : Z) (f : InteractiveForm)
  : result (list string) * InteractiveForm :=
  match cachedLines f with
  | Some lines =>
      if bool_decide (cachedWidth f = Some width) then (Ok lines, f)
      else
        match renderLines width f with
        | Ok ls => (Ok ls, set_cache (Some width) (Some ls) f)
        | Throw e => (Throw e, f)
        end
  | None =>
      match renderLines width f with
      | Ok ls => (Ok ls, set_cache (Some width) (Some ls) f)
      | Throw e => (Throw e, f)
      end
  end.

(** ** Runs of the component *)

(** What the host can do with a form: deliver an input token, fire the
    abort signal, ask for a frame, drop the render cache, move the
    focus. *)
Inductive Event :=
| EInput (data : string)
| EAbort
| ERender (width : Z)
| EInvalidate
| EFocus (v : bool).

Definition step (e : Event) (f : InteractiveForm) : result InteractiveForm :=
  match e with
  | EInput data => handleInput data f
  | EAbort => Ok (on_abort f)
  | ERender width => Ok (snd (render width f))
  | EInvalidate => Ok (invalidate f)
  | EFocus v => Ok (set_focused v f)
  end.

Fixpoint run (es : list Event) (f : InteractiveForm) : result InteractiveForm :=
  match es with
  | [] => Ok f
  | e :: rest => f' ← step e f; run rest f'
  end.

(** Whether a run ends without an exception, and the state it ends in
    (the start state when it throws). *)
Definition run_ok (es : list Event) (f : InteractiveForm) : bool :=
  match run es f with
  | Ok _ => true
  | Throw _ => false
  end.

Definition after (es : list Event) (f : InteractiveForm) : InteractiveForm :=
  match run es f with
  | Ok f' => f'
  | Throw _ => f
  end.

End Component.

(** ** A concrete host: an ANSI terminal with a one-line text input

    Used to run the component on concrete key sequences.  [matchesKey]
    recognises the byte sequences a terminal sends for the keys; the
    input widget appends printable text to its buffer; the theme applies
    no styling. *)

Definition ESC : string := String (ascii_of_nat 27) EmptyString.

Definition key_sequence (k : Key) : string :=
  match k with
  | Key_escape => ESC
  | Key_enter => String (ascii_of_nat 13) EmptyString
  | Key_tab => String (ascii_of_nat 9) EmptyString
  | Key_right => ESC +:+ "[C"
  | Key_shift_tab => ESC +:+ "[Z"
  | Key_left => ESC +:+ "[D"
  | Key_up => ESC +:+ "[A"
  | Key_down => ESC +:+ "[B"
  | Key_space => " "
  end.

Record LineInput := {
  text : string;
  has_focus : bool;
}.

Definition printable (c : ascii) : bool :=
  (32 <=? Z.of_nat (nat_of_ascii c)) && (Z.of_nat (nat_of_ascii c) <? 127).

Definition line_handleInput (data : string) (i : LineInput) : LineInput :=
  if forallb printable (list_ascii_of_string data)
  then {| text := text i +:+ data; has_focus := has_focus i |}
  else i.

Definition ansi_host : Host := {|
  Input := LineInput;
  newInput := {| text := ""; has_focus := false |};
  getText := text;
  input_handleInput := line_handleInput;
  input_set_focused := λ v i, {| text := text i; has_focus := v |};
  input_render := λ i w, ["> " +:+ text i];
  matchesKey := λ data k, String.eqb data (key_sequence k);
  fg := λ _ s, s;
  bg := λ _ s, s;
  bold := λ s, s;
  truncateToWidth := λ s w, substring 0 (Z.to_nat w) s;
|}.

(** Key presses as the events the terminal delivers. *)
Definition press (k : Key) : Event := EInput (key_sequence k).

(** The two-tab form of the specification's scenarios. *)
Definition opt (v : string) : OptionConfig :=
  {| value := v; label := v; description := None |}.

Definition colorTab : TabConfig :=
  {| id := "Color"; tab_label := "Color"; question := "Which color?";
     options := [opt "red"; opt "blue"]; selectionType := single;
     allowCustom := false |}.

Definition notesTab : TabConfig :=
  {| id := "Notes"; tab_label := "Notes"; question := "Any notes?";
     options := [opt "a"; opt "b"]; selectionType := multiple;
     allowCustom := true |}.

Definition twoTabForm : InteractiveForm (H := ansi_host) :=
  new_form "Survey" [colorTab; notesTab].

Definition zeroTabForm : InteractiveForm (H := ansi_host) :=
  new_form "Empty" [].









(** ** Predicates of the specification *)

Section Predicates.
Context `{Host}.

(** Mutual exclusivity of a response: no custom text, or nothing selected. *)
Definition exclusive (r : TabResponse) : Prop :=
  customText r = None ∨ selected r = [].

(** The cursor of a tab lies among the tab's slots. *)
Definition cursor_in_bounds (f : InteractiveForm) (tab : TabConfig) : Prop :=
  ∃ c, optionCursor f !! id tab = Some c ∧ 0 ≤ c < optionCount tab.

Definition cursor_in_boundsb (f : InteractiveForm) (tab : TabConfig) : bool :=
  match optionCursor f !! id tab with
  | Some c => (0 <=? c) && (c <? optionCount tab)
  | None => false
  end.


(** Every tab has its response and its input widget. *)
Definition populated (f : InteractiveForm) : Prop :=
  ∀ tab, tab ∈ tabs f →
    is_Some (responses f !! id tab) ∧ is_Some (customInputs f !! id tab).

(** The form shows the real tab [tab] and is not capturing text for it. *)
Definition browsing (f : InteractiveForm) (tab : TabConfig) : Prop :=
  js_index (tabs f) (currentTabIndex f) = Some tab ∧
  truthy_obool (customInputMode f !! id tab) = false.


(** The input token of the digit key [d], for [1 <= d <= 9]. *)
Definition digitKey (d : Z) : string :=
  String (ascii_of_nat (48 + Z.to_nat d)) EmptyString.

(** [data] is none of the keys that [handleInput] tests before the
    selection keys. *)
Definition no_navigation (data : string) : Prop :=
  matchesKey data Key_escape = false ∧ matchesKey data Key_tab = false ∧
  matchesKey data Key_right = false ∧ matchesKey data Key_shift_tab = false ∧
  matchesKey data Key_left = false ∧ matchesKey data Key_up = false ∧
  matchesKey data Key_down = false.

(** [data] is Enter or Space, as the selection branch sees it. *)
Definition selection_key (data : string) : Prop :=
  no_navigation data ∧
  (matchesKey data Key_enter || matchesKey data Key_space) = true.

(** [data] is recognised as no key at all. *)
Definition plain_token (data : string) : Prop :=
  ∀ k, matchesKey data k = false.

(** [f'] differs from [f] in the render cache only. *)
Definition same_but_cache (f f' : InteractiveForm) : Prop :=
  f' = set_cache (cachedWidth f') (cachedLines f') f.

End Predicates.

(** ** Further notions used in the properties of the component *)

(** The toggle of the multiple-selection branches: remove the value at
    its first index, or append it. *)
Definition toggled (sel : list string) (v : string) : list string :=
  if 0 <=? indexOf sel v then splice1 sel (indexOf sel v)
  else (sel ++ [v])%list.

Section Writes.
Context `{Host}.

(** The responses [handleInput] can store for the current tab [tab] of
    the form [f]: a committed custom text, a single selection, or a
    toggled multiple selection. *)
Inductive response_written (f : InteractiveForm) (tab : TabConfig) : TabResponse → Prop :=
| written_custom (input : Input) :
    customInputs f !! id tab = Some input →
    truthy_string (trim (getText input)) = true →
    response_written f tab
      {| selected := []; customText := Some (trim (getText input)) |}
| written_single (o : OptionConfig) :
    o ∈ options tab → selectionType tab = single →
    response_written f tab {| selected := [value o]; customText := None |}
| written_toggle (o : OptionConfig) (r : TabResponse) :
    o ∈ options tab → selectionType tab = multiple →
    responses f !! id tab = Some r →
    response_written f tab
      {| selected := toggled (selected r) (value o); customText := None |}.

(** [data] takes the branch of Tab or Right, of Shift+Tab or Left, of
    Up, of Down: it fails the tests that come before and passes the
    branch's own. *)
Definition tab_key (data : string) : Prop :=
  matchesKey data Key_escape = false ∧
  (matchesKey data Key_tab || matchesKey data Key_right) = true.

Definition back_key (data : string) : Prop :=
  matchesKey data Key_escape = false ∧
  (matchesKey data Key_tab || matchesKey data Key_right) = false ∧
  (matchesKey data Key_shift_tab || matchesKey data Key_left) = true.

Definition up_key (data : string) : Prop :=
  matchesKey data Key_escape = false ∧
  (matchesKey data Key_tab || matchesKey data Key_right) = false ∧
  (matchesKey data Key_shift_tab || matchesKey data Key_left) = false ∧
  matchesKey data Key_up = true.

Definition down_key (data : string) : Prop :=
  matchesKey data Key_escape = false ∧
  (matchesKey data Key_tab || matchesKey data Key_right) = false ∧
  (matchesKey data Key_shift_tab || matchesKey data Key_left) = false ∧
  matchesKey data Key_up = false ∧ matchesKey data Key_down = true.

(** What [renderLines] reads of a form. *)
Definition same_view (f g : InteractiveForm) : Prop :=
  tabs f = tabs g ∧ currentTabIndex f = currentTabIndex g ∧
  responses f = responses g ∧ optionCursor f = optionCursor g ∧
  customInputMode f = customInputMode g ∧ customInputs f = customInputs g.

(** The cached frame, if any, is the frame a fresh render would give. *)
Definition cache_fresh (f : InteractiveForm) : Prop :=
  ∀ w ls, cachedWidth f = Some w → cachedLines f = Some ls →
          renderLines w f = Ok ls.

End Writes.

Definition is_focus (e : Event) : bool :=
  match e with
  | EFocus _ => true
  | _ => false
  end.

(** ** The tool around the form (index.ts) *)

Definition newline : string := String (ascii_of_nat 10) EmptyString.

(** The answer line of one tab in the transcript of [execute]. *)
Definition answerLine (tab : TabConfig) (response : option TabResponse) : string :=
  match response with
  | Some r =>
      if truthy_ostring (customText r) then
        "**Answer:** " +:+ default "" (customText r)
      else if 0 <? js_length (selected r) then
        "**Answer:** " +:+
        join ", "
          (map (λ val,
                  match List.find (λ o, String.eqb (value o) val) (options tab) with
                  | Some opt => label opt
                  | None => val
                  end)
               (selected r))
      else "**Answer:** (no selection)"
  | None => "**Answer:** (skipped)"
  end.

(** The body of the loop over [params.tabs]. *)
Definition tabLines (result : FormResult) (tab : TabConfig) : list string :=
  ["### " +:+ tab_label tab;
   "**Question:** " +:+ question tab;
   answerLine tab (result_responses result !! id tab);
   ""].

Definition transcriptLines (ttl : string) (ts : list TabConfig) (result : FormResult)
  : list string :=
  (["## Form Responses: " +:+ ttl; ""] ++ concat (map (tabLines result) ts))%list.

Inductive ToolResult :=
| ToolError (message : string)
| ToolCancelled (message : string)
| ToolResponses (message : string) (details : gmap string TabResponse).

(** [execute], from the value the form resolved with: [hasUI] is
    [ctx.hasUI], [result] what [done] was called with, [aborted] is
    [signal?.aborted]. *)
Definition execute (hasUI : bool) (ttl : string) (ts : list TabConfig)
    (result : option FormResult) (aborted : bool) : ToolResult :=
  if negb hasUI then ToolError "Error: interactive_form requires interactive mode"
  else
    match result with
    | None => ToolCancelled "Form cancelled by user"
    | Some r =>
        if aborted then ToolCancelled "Form cancelled by user"
        else ToolResponses (join newline (transcriptLines ttl ts r)) (result_responses r)
    end.

(** ** The todo tracker (todo-tracker/index.ts)

    The module-level [state] object is passed explicitly.  Its
    [currentCtx] field, a handle on the host, is left out, and so are
    the calls into the host around the operations (the widget, the
    session entries, the working message).  The [id] of a todo is an
    integer. *)

Module TodoTracker.

Inductive Status := pending | in_progress | completed.

Record Todo := {
  id : Z;
  text : string;
  status : Status;
}.

Record TodoState := {
  todos : list Todo;
  nextId : Z;
  visible : bool;
}.

(** The initial value of [state]. *)
Definition state : TodoState :=
  {| todos := []; nextId := 1; visible := true |}.


Definition with_status (st : Status) (t : Todo) : Todo :=
  {| id := id t; text := text t; status := st |}.

(** Assigning [status] on the object that [find] returned: the first
    todo with the given id changes in place. *)
Fixpoint set_status (i : Z) (st : Status) (l : list Todo) : list Todo :=
  match l with
  | [] => []
  | t :: r =>
      if id t =? i then with_status st t :: r
      else t :: set_status i st r
  end.

Definition addTodo (txt : string) (s : TodoState) : Todo * TodoState :=
  let todo := {| id := nextId s; text := txt; status := pending |} in
  (todo,
   {| todos := (todos s ++ [todo])%list; nextId := nextId s + 1;
      visible := visible s |}).

Definition startTodo (i : Z) (s : TodoState) : option Todo * TodoState :=
  match List.find (λ t, id t =? i) (todos s) with
  | Some todo =>
      match status todo with
      | pending =>
          (Some (with_status in_progress todo),
           {| todos := set_status i in_progress (todos s); nextId := nextId s;
              visible := visible s |})
      | _ => (None, s)
      end
  | None => (None, s)
  end.

Definition completeTodo (i : Z) (s : TodoState) : option Todo * TodoState :=
  match List.find (λ t, id t =? i) (todos s) with
  | Some todo =>
      match status todo with
      | completed => (None, s)
      | _ =>
          (Some (with_status completed todo),
           {| todos := set_status i completed (todos s); nextId := nextId s;
              visible := visible s |})
      end
  | None => (None, s)
  end.

Definition clearTodos (s : TodoState) : TodoState :=
  {| todos := []; nextId := 1; visible := visible s |}.

Definition icon (t : Todo) : string :=
  match status t with
  | completed => "☑"
  | in_progress => "◉"
  | pending => "☐"
  end.

Definition listTodos (s : TodoState) : string :=
  match todos s with
  | [] => "No todos."
  | _ =>
      join newline
        (map (λ t, string_of_Z (id t) +:+ ". [" +:+ icon t +:+ "] " +:+ text t)
             (todos s))
  end.

Section Widget.
Context `{Host}.



End Widget.

(** The operations that change the todos, as the tool and the commands
    invoke them. *)
Inductive Op :=
| OpAdd (txt : string)
| OpStart (i : Z)
| OpComplete (i : Z)
| OpClear.

Definition apply (op : Op) (s : TodoState) : TodoState :=
  match op with
  | OpAdd txt => snd (addTodo txt s)
  | OpStart i => snd (startTodo i s)
  | OpComplete i => snd (completeTodo i s)
  | OpClear => clearTodos s
  end.

Definition applyAll (ops : list Op) (s : TodoState) : TodoState :=
  foldl (λ acc op, apply op acc) s ops.

Definition is_clear (op : Op) : bool :=
  match op with
  | OpClear => true
  | _ => false
  end.

(** Ids are distinct, positive and below the next id. *)
Definition ids_fresh (s : TodoState) : Prop :=
  NoDup (map id (todos s)) ∧
  Forall (λ t, 1 ≤ id t < nextId s) (todos s) ∧
  1 ≤ nextId s.

(** Pending, in progress, completed: the order of a todo's life. *)
Definition rank (st : Status) : nat :=
  match st with
  | pending => 0
  | in_progress => 1
  | completed => 2
  end.

End TodoTracker.

(** * Properties *)

(** ** The scenarios of the specification, run on the terminal host *)

(** The keys of the two-tab scenario: select red, Tab, select a and b,
    Tab into the summary, Enter. *)
Definition scenario_keys : list Event :=
  [press Key_enter; press Key_tab; press Key_enter; press Key_down;
   press Key_enter; press Key_tab; press Key_enter].

(** In the summary view [handleInput] returns at its first statement:
    [this.tabs[this.currentTabIndex]] is [undefined] there. *)
Lemma handleInput_summary `{Host} (data : string) (f : InteractiveForm) :
  currentTabIndex f = js_length (tabs f) → handleInput data f = Ok f.
Proof.
  intros Hi. unfold handleInput, js_index. rewrite Hi.
  destruct (js_length (tabs f) <? 0); [done|].
  unfold js_length. rewrite Nat2Z.id.
  rewrite (lookup_ge_None_2 (tabs f) (length (tabs f))); [done | lia].
Qed.

Lemma run_after `{Host} (es : list Event) (f : InteractiveForm) :
  run_ok es f = true → run es f = Ok (after es f).
Proof. unfold run_ok, after. by destruct (run es f). Qed.

Lemma run_single `{Host} (data : string) (f : InteractiveForm) :
  run [EInput data] f = handleInput data f.
Proof. cbn. by destruct (handleInput data f). Qed.

(** C1 (as the code behaves): after the scenario's keys the form is in
    the summary view with the expected responses, but the final Enter
    has not invoked the completion callback. *)
Theorem scenario_enter_not_submitted :
  run scenario_keys twoTabForm = Ok (after scenario_keys twoTabForm) ∧
  currentTabIndex (after scenario_keys twoTabForm) = 2 ∧
  js_length (tabs (after scenario_keys twoTabForm)) = 2 ∧
  responses (after scenario_keys twoTabForm) !! "Color"
    = Some {| selected := ["red"]; customText := None |} ∧
  responses (after scenario_keys twoTabForm) !! "Notes"
    = Some {| selected := ["a"; "b"]; customText := None |} ∧
  doneCalls (after scenario_keys twoTabForm) = [].
Proof.
  split; [apply run_after; vm_compute; reflexivity|].
  vm_compute. repeat split.
Qed.

(** C3 (as the code behaves): a form without tabs is constructed in
    the summary view and Enter does not invoke the completion
    callback. *)
Theorem zero_tabs_enter_not_submitted :
  currentTabIndex zeroTabForm = js_length (tabs zeroTabForm) ∧
  run [press Key_enter] zeroTabForm = Ok (after [press Key_enter] zeroTabForm) ∧
  doneCalls (after [press Key_enter] zeroTabForm) = [].
Proof.
  split; [vm_compute; reflexivity|].
  split; [apply run_after; vm_compute; reflexivity | vm_compute; reflexivity].
Qed.

(** ** Basic facts about the primitives *)


Lemma js_index_Some {A : Type} (l : list A) (i : Z) (a : A) :
  js_index l i = Some a → a ∈ l ∧ 0 ≤ i < js_length l.
Proof.
  unfold js_index, js_length. destruct (Z.ltb_spec i 0) as [|Hi]; [done|].
  intros Hl. split; [by eapply list_elem_of_lookup_2|].
  apply lookup_lt_Some in Hl. lia.
Qed.

Lemma js_index_in_range {A : Type} (l : list A) (i : Z) :
  0 ≤ i < js_length l → is_Some (js_index l i).
Proof.
  unfold js_index, js_length. intros Hi.
  destruct (Z.ltb_spec i 0); [lia|].
  apply lookup_lt_is_Some. lia.
Qed.

Lemma parseInt_digitKey (d : Z) : 1 ≤ d ≤ 9 → parseInt (digitKey d) = Some d.
Proof.
  intros Hd.
  assert (d = 1 ∨ d = 2 ∨ d = 3 ∨ d = 4 ∨ d = 5 ∨ d = 6 ∨ d = 7 ∨ d = 8 ∨ d = 9)
    as Hcases by lia.
  repeat destruct Hcases as [-> | Hcases]; try reflexivity.
  by subst.
Qed.

(** ** The constructor *)

Section Constructor.
Context `{Host}.

Lemma init_tabs_frame (ts : list TabConfig) (f : InteractiveForm) :
  title (init_tabs ts f) = title f ∧ tabs (init_tabs ts f) = tabs f ∧
  currentTabIndex (init_tabs ts f) = currentTabIndex f ∧
  cachedWidth (init_tabs ts f) = cachedWidth f ∧
  cachedLines (init_tabs ts f) = cachedLines f ∧
  _focused (init_tabs ts f) = _focused f ∧
  doneCalls (init_tabs ts f) = doneCalls f ∧
  renderRequests (init_tabs ts f) = renderRequests f.
Proof.
  revert f. induction ts as [|tab ts IH]; intros f; [done|].
  simpl. by destruct (IH
    (set_customInputs (<[id tab := newInput]> (customInputs f))
      (set_customInputMode (<[id tab := false]> (customInputMode f))
        (set_optionCursor (<[id tab := 0]> (optionCursor f))
          (set_responses
             (<[id tab := {| selected := []; customText := None |}]> (responses f))
             f))))) as (-> & -> & -> & -> & -> & -> & -> & ->).
Qed.

(** Each of the four dictionaries holds the initial value at the id of
    every tab, and what it held before elsewhere. *)
Lemma init_tabs_lookup (ts : list TabConfig) (f : InteractiveForm) (k : string) :
  ((k ∈ map id ts) ∧
   responses (init_tabs ts f) !! k = Some {| selected := []; customText := None |} ∧
   optionCursor (init_tabs ts f) !! k = Some 0 ∧
   customInputMode (init_tabs ts f) !! k = Some false ∧
   customInputs (init_tabs ts f) !! k = Some newInput)
  ∨
  ((k ∉ map id ts) ∧
   responses (init_tabs ts f) !! k = responses f !! k ∧
   optionCursor (init_tabs ts f) !! k = optionCursor f !! k ∧
   customInputMode (init_tabs ts f) !! k = customInputMode f !! k ∧
   customInputs (init_tabs ts f) !! k = customInputs f !! k).
Proof.
  revert f. induction ts as [|tab ts IH]; intros f.
  - right. split; [apply not_elem_of_nil | done].
  - simpl.
    destruct (IH
      (set_customInputs (<[id tab := newInput]> (customInputs f))
        (set_customInputMode (<[id tab := false]> (customInputMode f))
          (set_optionCursor (<[id tab := 0]> (optionCursor f))
            (set_responses
               (<[id tab := {| selected := []; customText := None |}]> (responses f))
               f)))))
      as [(Hin & Hr & Hc & Hm & Hi) | (Hnin & Hr & Hc & Hm & Hi)].
    + left. split; [by right | done].
    + simpl in Hr, Hc, Hm, Hi. destruct (decide (id tab = k)) as [<- | Hne].
      * left. split; [by left|].
        by rewrite Hr, Hc, Hm, Hi, !lookup_insert_eq.
      * right. split; [by intros [?|?]%elem_of_cons|].
        by rewrite Hr, Hc, Hm, Hi, !lookup_insert_ne.
Qed.

Lemma new_form_tabs (ttl : string) (ts : list TabConfig) :
  tabs (new_form ttl ts) = ts.
Proof. unfold new_form. by destruct (init_tabs_frame ts
  {| title := ttl; tabs := ts; currentTabIndex := 0;
     responses := ∅; optionCursor := ∅; customInputMode := ∅;
     customInputs := ∅; cachedWidth := None; cachedLines := None;
     _focused := false; doneCalls := []; renderRequests := 0%nat |})
  as (_ & -> & _). Qed.

Lemma new_form_doneCalls (ttl : string) (ts : list TabConfig) :
  doneCalls (new_form ttl ts) = [].
Proof. unfold new_form. by destruct (init_tabs_frame ts
  {| title := ttl; tabs := ts; currentTabIndex := 0;
     responses := ∅; optionCursor := ∅; customInputMode := ∅;
     customInputs := ∅; cachedWidth := None; cachedLines := None;
     _focused := false; doneCalls := []; renderRequests := 0%nat |})
  as (_ & _ & _ & _ & _ & _ & -> & _). Qed.

Lemma new_form_lookup (ttl : string) (ts : list TabConfig) (k : string) :
  ((k ∈ map id ts) ∧
   responses (new_form ttl ts) !! k = Some {| selected := []; customText := None |} ∧
   optionCursor (new_form ttl ts) !! k = Some 0 ∧
   customInputMode (new_form ttl ts) !! k = Some false ∧
   customInputs (new_form ttl ts) !! k = Some newInput)
  ∨
  ((k ∉ map id ts) ∧
   responses (new_form ttl ts) !! k = None ∧
   optionCursor (new_form ttl ts) !! k = None ∧
   customInputMode (new_form ttl ts) !! k = None ∧
   customInputs (new_form ttl ts) !! k = None).
Proof.
  unfold new_form.
  destruct (init_tabs_lookup ts
    {| title := ttl; tabs := ts; currentTabIndex := 0;
       responses := ∅; optionCursor := ∅; customInputMode := ∅;
       customInputs := ∅; cachedWidth := None; cachedLines := None;
       _focused := false; doneCalls := []; renderRequests := 0%nat |} k)
    as [? | (Hn & -> & -> & -> & ->)]; [by left|].
  right. simpl. by rewrite !lookup_empty.
Qed.

Lemma new_form_at_tab (ttl : string) (ts : list TabConfig) (tab : TabConfig) :
  tab ∈ ts →
  responses (new_form ttl ts) !! id tab = Some {| selected := []; customText := None |} ∧
  optionCursor (new_form ttl ts) !! id tab = Some 0 ∧
  customInputMode (new_form ttl ts) !! id tab = Some false ∧
  customInputs (new_form ttl ts) !! id tab = Some newInput.
Proof.
  intros Hin. destruct (new_form_lookup ttl ts (id tab)) as [(_ & ?) | (Hn & _)]; [done|].
  exfalso. apply Hn. by apply list_elem_of_fmap_2.
Qed.

Lemma new_form_populated (ttl : string) (ts : list TabConfig) :
  populated (new_form ttl ts).
Proof.
  intros tab Hin. rewrite new_form_tabs in Hin.
  destruct (new_form_at_tab ttl ts tab Hin) as (-> & _ & _ & ->). eauto.
Qed.

End Constructor.

(** ** Steps preserve the dictionaries' domains *)

Section Steps.
Context `{Host}.

Lemma render_state (width : Z) (f : InteractiveForm) :
  snd (render width f) = f ∨
  ∃ ls, renderLines width f = Ok ls ∧
        snd (render width f) = set_cache (Some width) (Some ls) f.
Proof.
  unfold render.
  destruct (cachedLines f) as [lines|]; [case_bool_decide; [by left|]|];
    (destruct (renderLines width f) as [ls|e] eqn:Hls; [right; by exists ls | by left]).
Qed.

(** On a populated form [handleInput] returns normally, and the form
    stays populated over the same tabs. *)
Lemma handleInput_populated (data : string) (f : InteractiveForm) :
  populated f →
  ∃ f', handleInput data f = Ok f' ∧ populated f' ∧ tabs f' = tabs f.
Proof.
  intros Hp. unfold handleInput.
  destruct (js_index (tabs f) (currentTabIndex f)) as [tab|] eqn:Htab; [|eauto].
  apply js_index_Some in Htab as [Hin _].
  destruct (Hp _ Hin) as [[r Hr] [inp Hinp]].
  cbn. rewrite Hr, Hinp. cbn.
  repeat case_match; cbn;
    (eexists; split; [reflexivity|]; split; [|reflexivity]);
    intros tab_ Htab_; cbn in *; destruct (Hp tab_ Htab_);
    rewrite ?lookup_insert_is_Some'; auto.
Qed.

Lemma set_focused_populated (v : bool) (f : InteractiveForm) :
  populated f → populated (set_focused v f) ∧ tabs (set_focused v f) = tabs f.
Proof.
  intros Hp. unfold set_focused. cbn.
  repeat case_match; cbn; (split; [|reflexivity]);
    intros tab_ Htab_; cbn in *; destruct (Hp tab_ Htab_);
    rewrite ?lookup_insert_is_Some'; auto.
Qed.

Lemma step_populated (e : Event) (f : InteractiveForm) :
  populated f → ∃ f', step e f = Ok f' ∧ populated f' ∧ tabs f' = tabs f.
Proof.
  intros Hp. destruct e as [data| |width| |v]; cbn.
  - by apply handleInput_populated.
  - eexists; split; [reflexivity|]. by split.
  - eexists; split; [reflexivity|].
    destruct (render_state width f) as [-> | (ls & _ & ->)]; by split.
  - eexists; split; [reflexivity|]. by split.
  - eexists; split; [reflexivity|]. by apply set_focused_populated.
Qed.

(** A property that every step preserves, without ever throwing,
    holds at the end of every run, and the run does not throw. *)
Lemma run_invariant (I : InteractiveForm → Prop) :
  (∀ e f, I f → ∃ f', step e f = Ok f' ∧ I f') →
  ∀ es f, I f → ∃ f', run es f = Ok f' ∧ I f'.
Proof.
  intros Hstep es. induction es as [|e es IH]; intros f Hf; [by exists f|].
  destruct (Hstep e f Hf) as (f1 & He & Hf1).
  destruct (IH f1 Hf1) as (f' & Hrun & Hf').
  exists f'. split; [|done]. cbn. by rewrite He.
Qed.

Lemma run_populated (es : list Event) (f : InteractiveForm) :
  populated f → ∃ f', run es f = Ok f' ∧ populated f' ∧ tabs f' = tabs f.
Proof.
  intros Hp.
  destruct (run_invariant (λ g, populated g ∧ tabs g = tabs f)) with (es := es) (f := f)
    as (f' & Hrun & Hf'); [|done|by exists f'].
  intros e g [Hg Htabs]. destruct (step_populated e g Hg) as (g' & He & Hg' & Ht).
  exists g'. split; [done|]. split; [done | congruence].
Qed.

End Steps.

(** ** Robustness and completion *)

Section Robustness.
Context `{Host}.






End Robustness.


(** ** Invariants of the responses and of the cursors *)

Section Invariants.
Context `{Host}.

Lemma handleInput_exclusive (data : string) (f f' : InteractiveForm) :
  map_Forall (λ _ r, exclusive r) (responses f) →
  handleInput data f = Ok f' →
  map_Forall (λ _ r, exclusive r) (responses f').
Proof.
  intros Hex. unfold handleInput.
  destruct (js_index (tabs f) (currentTabIndex f)) as [tab|];
    [|by intros [= <-]].
  cbn. destruct (responses f !! id tab); destruct (customInputs f !! id tab); cbn;
    repeat case_match; cbn; intros [= <-]; cbn; try done;
    (apply map_Forall_insert_2; [|done]);
    first [by left | by right].
Qed.

Lemma step_exclusive (e : Event) (f f' : InteractiveForm) :
  map_Forall (λ _ r, exclusive r) (responses f) →
  step e f = Ok f' →
  map_Forall (λ _ r, exclusive r) (responses f').
Proof.
  intros Hex. destruct e as [data| |width| |v]; cbn.
  - by apply handleInput_exclusive.
  - by intros [= <-].
  - intros [= <-]. by destruct (render_state width f) as [-> | (ls & _ & ->)].
  - by intros [= <-].
  - intros [= <-]. unfold set_focused. cbn. by repeat case_match.
Qed.

Lemma new_form_exclusive (ttl : string) (ts : list TabConfig) :
  map_Forall (λ _ r, exclusive r) (responses (new_form ttl ts)).
Proof.
  intros k r Hr.
  destruct (new_form_lookup ttl ts k) as [(_ & Hk & _) | (_ & Hk & _)];
    rewrite Hk in Hr; [|done].
  injection Hr as <-. by left.
Qed.

(** C5: after any run of the component from its constructor, no
    response has both a defined custom text and a non-empty selection. *)
Theorem responses_mutually_exclusive (ttl : string) (ts : list TabConfig)
    (es : list Event) :
  ∃ f, run es (new_form ttl ts) = Ok f ∧
       map_Forall (λ _ r, exclusive r) (responses f).
Proof.
  destruct (run_invariant
              (λ g, populated g ∧ map_Forall (λ _ r, exclusive r) (responses g)))
    with (es := es) (f := new_form ttl ts) as (f & Hrun & _ & Hex).
  - intros e g [Hp Hex].
    destruct (step_populated e g Hp) as (g' & He & Hp' & _).
    exists g'. split; [done|]. split; [done|]. by eapply step_exclusive.
  - split; [apply new_form_populated | apply new_form_exclusive].
  - by exists f.
Qed.

Lemma unique_id_tab (ts : list TabConfig) (t t' : TabConfig) :
  NoDup (map id ts) → t ∈ ts → t' ∈ ts → id t = id t' → t = t'.
Proof.
  induction ts as [|x ts IH]; [by intros _ ?%elem_of_nil|].
  cbn. intros [Hx Hnd]%NoDup_cons [-> | Ht]%elem_of_cons [-> | Ht']%elem_of_cons Hid.
  - done.
  - exfalso. apply Hx. rewrite Hid. by apply list_elem_of_fmap_2.
  - exfalso. apply Hx. rewrite <- Hid. by apply list_elem_of_fmap_2.
  - by apply IH.
Qed.







End Invariants.

(** ** Quick selection, custom input and rendering *)

Section Selection.
Context `{Host}.

Lemma option_in_range (tab : TabConfig) (d : Z) :
  1 ≤ d ≤ optionCount tab →
  (allowCustom tab && (d - 1 =? js_length (options tab))) = false →
  is_Some (js_index (options tab) (d - 1)).
Proof.
  unfold optionCount. intros Hd Hcustom. apply js_index_in_range.
  destruct (allowCustom tab); cbn in Hcustom; [apply Z.eqb_neq in Hcustom|]; lia.
Qed.

(** C7: in the Browsing state the digit key [d] (1 to 9) with
    [d <= optionCount] has exactly the effect of Enter or Space pressed
    with the cursor on slot [d - 1], and it leaves the cursor on that
    slot; a digit beyond [optionCount] leaves the form as it is. *)
Theorem digit_key_as_enter_on_slot (f : InteractiveForm) (tab : TabConfig)
    (d : Z) (enter : string) :
  browsing f tab → 1 ≤ d ≤ 9 →
  plain_token (digitKey d) → selection_key enter →
  (d ≤ optionCount tab →
   handleInput (digitKey d) f =
   handleInput enter (set_optionCursor (<[id tab := d - 1]> (optionCursor f)) f) ∧
   ∀ f', handleInput (digitKey d) f = Ok f' → optionCursor f' !! id tab = Some (d - 1)) ∧
  (optionCount tab < d → handleInput (digitKey d) f = Ok f).
Proof.
  intros [Htab Hmode] Hd Hplain [(He1 & He2 & He3 & He4 & He5 & He6 & He7) Hsel].
  unfold handleInput. cbn. rewrite Htab, Hmode, !Hplain. cbn.
  rewrite He1, He2, He3, He4, He5, He6, He7, Hsel. cbn.
  apply js_index_Some in Htab as [_ Hidx].
  rewrite (proj2 (Z.eqb_neq _ _)) by lia.
  rewrite parseInt_digitKey by done.
  rewrite lookup_insert_eq. cbn.
  split; intros Hcount.
  - rewrite (proj2 (Z.leb_le 1 d)), (proj2 (Z.leb_le d _)) by lia. cbn.
    destruct (allowCustom tab && (d - 1 =? js_length (options tab))) eqn:Hcustom.
    + destruct (customInputs f !! id tab); cbn; (split; [reflexivity|]);
        intros f' [= <-]; apply lookup_insert_eq.
    + destruct (option_in_range tab d) as [o ->]; [lia | done |].
      destruct (responses f !! id tab); cbn; [|by split].
      destruct (selectionType tab); cbn; (split; [reflexivity|]);
        intros f' [= <-]; apply lookup_insert_eq.
  - rewrite (proj2 (Z.leb_gt d _)) by lia. by rewrite andb_false_r.
Qed.



(** C8: a second [render(width)] directly after the first returns the
    same lines (or throws the same exception) and leaves the form as
    the first call left it; and the first call changes nothing but the
    render cache. *)
Theorem render_idempotent (width : Z) (f : InteractiveForm) :
  render width (snd (render width f)) = render width f ∧
  same_but_cache f (snd (render width f)).
Proof.
  unfold render, same_but_cache.
  destruct (cachedLines f) as [lines|] eqn:Hlines;
    [case_bool_decide as Hwidth|];
    try (destruct (renderLines width f) as [ls|e] eqn:Hls); cbn;
    rewrite ?Hlines, ?Hls; cbn;
    rewrite ?bool_decide_eq_true_2 by done;
    rewrite ?bool_decide_eq_false_2 by done;
    rewrite ?Hls; split; try reflexivity; by destruct f; cbn in *; subst.
Qed.

End Selection.

(** ** Concrete runs on the terminal host *)

Lemma cursor_in_boundsb_spec `{Host} (f : InteractiveForm) (tab : TabConfig) :
  cursor_in_boundsb f tab = true ↔ cursor_in_bounds f tab.
Proof.
  unfold cursor_in_boundsb, cursor_in_bounds.
  destruct (optionCursor f !! id tab) as [c|]; split.
  - intros [? ?]%andb_true_iff. exists c. split; [done | lia].
  - intros (c' & [= <-] & Hc). apply andb_true_iff. lia.
  - done.
  - by intros (c' & ? & _).
Qed.





(** C7 on the second tab of the two-tab form: the digit 3 against Enter
    on the custom slot. *)
Lemma digit_key_as_enter_on_slot_witness :
  browsing (after [press Key_tab] twoTabForm) notesTab ∧
  1 ≤ 3 ≤ 9 ∧
  plain_token (H := ansi_host) (digitKey 3) ∧
  selection_key (H := ansi_host) (key_sequence Key_enter) ∧
  (3 ≤ optionCount notesTab →
   handleInput (digitKey 3) (after [press Key_tab] twoTabForm) =
   handleInput (key_sequence Key_enter)
     (set_optionCursor
        (<[id notesTab := 3 - 1]> (optionCursor (after [press Key_tab] twoTabForm)))
        (after [press Key_tab] twoTabForm)) ∧
   ∀ f', handleInput (digitKey 3) (after [press Key_tab] twoTabForm) = Ok f' →
         optionCursor f' !! id notesTab = Some (3 - 1)) ∧
  (optionCount notesTab < 3 →
   handleInput (digitKey 3) (after [press Key_tab] twoTabForm)
     = Ok (after [press Key_tab] twoTabForm)).
Proof.
  assert (browsing (after [press Key_tab] twoTabForm) notesTab) as Hb.
  { split; vm_compute; reflexivity. }
  assert (1 ≤ 3 ≤ 9) as Hd by lia.
  assert (plain_token (H := ansi_host) (digitKey 3)) as Hplain.
  { intros k. destruct k; vm_compute; reflexivity. }
  assert (selection_key (H := ansi_host) (key_sequence Key_enter)) as Hsel.
  { repeat split; vm_compute; reflexivity. }
  split; [exact Hb|]. split; [exact Hd|]. split; [exact Hplain|]. split; [exact Hsel|].
  exact (digit_key_as_enter_on_slot (H := ansi_host) _ notesTab 3 _ Hb Hd Hplain Hsel).
Defined.


(** * Further properties of the component *)

(** Case analysis of one call of [handleInput] on the real tab [tab]:
    the submit test is decided by the index being in range, then every
    test of the body is split. *)
Ltac handle_cases f tab Htab :=
  unfold handleInput;
  destruct (js_index (tabs f) (currentTabIndex f)) as [tab|] eqn:Htab;
  [ let Hidx := fresh "Hidx" in
    pose proof (proj2 (js_index_Some _ _ _ Htab)) as Hidx;
    cbn;
    rewrite (proj2 (Z.eqb_neq (currentTabIndex f) (js_length (tabs f)))) by lia;
    rewrite ?andb_true_r, ?andb_false_r;
    destruct (responses f !! id tab) eqn:?;
    destruct (customInputs f !! id tab) eqn:?;
    cbn; repeat case_match; cbn
  | ].

Section Shape.
Context `{Host}.

Lemma elem_of_js_index {A : Type} (l : list A) (i : Z) (a : A) :
  js_index l i = Some a → a ∈ l.
Proof. intros Hi. by apply js_index_Some in Hi as [? _]. Qed.

Lemma toggled_hit (sel : list string) (v : string) :
  (0 <=? indexOf sel v) = true → toggled sel v = splice1 sel (indexOf sel v).
Proof. unfold toggled. by intros ->. Qed.

Lemma toggled_miss (sel : list string) (v : string) :
  (0 <=? indexOf sel v) = false → toggled sel v = (sel ++ [v])%list.
Proof. unfold toggled. by intros ->. Qed.

(** The response dictionary after [handleInput]: as before, or with
    one response written for the current tab. *)
Lemma handleInput_responses (data : string) (f f' : InteractiveForm) :
  handleInput data f = Ok f' →
  responses f' = responses f ∨
  ∃ tab r', js_index (tabs f) (currentTabIndex f) = Some tab ∧
            response_written f tab r' ∧
            responses f' = <[id tab := r']> (responses f).
Proof.
  handle_cases f tab Htab; intros [= <-]; cbn; try (by left);
    right; eexists tab, _; (split; [reflexivity|]); (split; [|reflexivity]).
  all: first
    [ by eapply written_custom
    | eapply written_single; [by eapply elem_of_js_index | done]
    | match goal with
      | Hhit : (0 <=? indexOf ?s ?v) = true |- _ => rewrite <- (toggled_hit s v Hhit)
      | Hmiss : (0 <=? indexOf ?s ?v) = false |- _ => rewrite <- (toggled_miss s v Hmiss)
      end;
      eapply written_toggle; [by eapply elem_of_js_index | done | done] ].
Qed.

Lemma step_responses (e : Event) (f f' : InteractiveForm) :
  step e f = Ok f' →
  responses f' = responses f ∨
  ∃ tab r', js_index (tabs f) (currentTabIndex f) = Some tab ∧
            response_written f tab r' ∧
            responses f' = <[id tab := r']> (responses f).
Proof.
  destruct e as [data| |width| |v]; cbn.
  - apply handleInput_responses.
  - intros [= <-]. by left.
  - intros [= <-]. left. by destruct (render_state width f) as [-> | (ls & _ & ->)].
  - intros [= <-]. by left.
  - intros [= <-]. left. unfold set_focused. cbn. by repeat case_match.
Qed.

(** A property of responses that holds of the empty response and of
    every response [handleInput] writes holds of all responses after
    every run. *)
Lemma responses_invariant (Q : TabResponse → Prop) (ttl : string)
    (ts : list TabConfig) (es : list Event) :
  Q {| selected := []; customText := None |} →
  (∀ f tab r', map_Forall (λ _, Q) (responses f) →
               response_written f tab r' → Q r') →
  ∃ f, run es (new_form ttl ts) = Ok f ∧ map_Forall (λ _, Q) (responses f).
Proof.
  intros Hempty Hwrite.
  destruct (run_invariant (λ g, populated g ∧ map_Forall (λ _, Q) (responses g)))
    with (es := es) (f := new_form ttl ts) as (f & Hrun & _ & HQ).
  - intros e g [Hp HQ].
    destruct (step_populated e g Hp) as (g' & He & Hp' & _).
    exists g'. split; [done|]. split; [done|].
    destruct (step_responses e g g' He) as [-> | (tab & r' & _ & Hw & ->)]; [done|].
    apply map_Forall_insert_2; [|done]. by eapply Hwrite.
  - split; [apply new_form_populated|].
    intros k r Hr.
    destruct (new_form_lookup ttl ts k) as [(_ & Hk & _) | (_ & Hk & _)];
      rewrite Hk in Hr; [|done].
    by injection Hr as <-.
  - by exists f.
Qed.

(** The same for a property that depends on the tab, in a form whose
    tabs have distinct ids. *)
Lemma tab_responses_invariant (P : TabConfig → TabResponse → Prop) (ttl : string)
    (ts : list TabConfig) (es : list Event) :
  NoDup (map id ts) →
  (∀ tab, P tab {| selected := []; customText := None |}) →
  (∀ f tab r', (∀ r, responses f !! id tab = Some r → P tab r) →
               response_written f tab r' → P tab r') →
  ∃ f, run es (new_form ttl ts) = Ok f ∧
       ∀ tab r, tab ∈ ts → responses f !! id tab = Some r → P tab r.
Proof.
  intros Hnd Hempty Hwrite.
  destruct (run_invariant
              (λ g, populated g ∧ tabs g = ts ∧
                    ∀ tab r, tab ∈ ts → responses g !! id tab = Some r → P tab r))
    with (es := es) (f := new_form ttl ts) as (f & Hrun & _ & _ & HP).
  - intros e g (Hp & Htabs & HP).
    destruct (step_populated e g Hp) as (g' & He & Hp' & Ht').
    exists g'. split; [done|]. split; [done|]. split; [congruence|].
    destruct (step_responses e g g' He) as [-> | (tab & r' & Htab & Hw & ->)]; [done|].
    apply elem_of_js_index in Htab. rewrite Htabs in Htab.
    intros t r Ht. destruct (decide (id tab = id t)) as [Hid | Hne].
    + assert (tab = t) as <- by by eapply unique_id_tab.
      rewrite lookup_insert_eq. intros [= <-]. eapply Hwrite; [|done].
      intros r0. by apply HP.
    + rewrite lookup_insert_ne by done. by apply HP.
  - split; [apply new_form_populated|]. split; [apply new_form_tabs|].
    intros tab r Hin Hr.
    destruct (new_form_at_tab ttl ts tab Hin) as (Hk & _).
    rewrite Hk in Hr. by injection Hr as <-.
  - by exists f.
Qed.

End Shape.

(** ** Lists and strings *)

Lemma indexOf_ge (l : list string) (x : string) : -1 ≤ indexOf l x.
Proof.
  induction l as [|y l IH]; cbn; [lia|].
  destruct (String.eqb y x); [lia|].
  destruct (Z.ltb_spec (indexOf l x) 0); lia.
Qed.

Lemma indexOf_miss (l : list string) (x : string) : indexOf l x < 0 ↔ x ∉ l.
Proof.
  induction l as [|y l IH]; cbn.
  - split; [intros _; apply not_elem_of_nil | lia].
  - destruct (String.eqb_spec y x) as [-> | Hne].
    + split; [lia | intros Hx; exfalso; apply Hx; by left].
    + rewrite not_elem_of_cons. destruct (Z.ltb_spec (indexOf l x) 0) as [Hlt | Hge].
      * split; [intros _; split; [congruence | by apply IH] | lia].
      * split; [lia | intros [_ Hx%IH]; lia].
Qed.

Lemma indexOf_hit (l : list string) (x : string) :
  0 ≤ indexOf l x → l !! Z.to_nat (indexOf l x) = Some x.
Proof.
  induction l as [|y l IH]; cbn; [lia|].
  destruct (String.eqb_spec y x) as [-> | Hne]; [done|].
  destruct (Z.ltb_spec (indexOf l x) 0) as [Hlt | Hge]; [lia|]. intros _.
  replace (Z.to_nat (indexOf l x + 1)) with (S (Z.to_nat (indexOf l x))) by lia.
  by apply IH.
Qed.

Lemma splice1_delete (l : list string) (idx : Z) :
  splice1 l idx = delete (Z.to_nat idx) l.
Proof. unfold splice1. by rewrite delete_take_drop. Qed.

(** Toggling keeps a duplicate-free selection duplicate-free. *)
Lemma toggled_NoDup (sel : list string) (v : string) :
  NoDup sel → NoDup (toggled sel v).
Proof.
  intros Hnd. unfold toggled. destruct (Z.leb_spec 0 (indexOf sel v)) as [Hhit | Hmiss].
  - rewrite splice1_delete. eapply sublist_NoDup; [done | apply sublist_delete].
  - apply NoDup_app. split; [done|]. split; [|apply NoDup_singleton].
    intros x Hx ->%list_elem_of_singleton. by apply (indexOf_miss sel v).
Qed.

(** Toggling adds nothing but the toggled value. *)
Lemma toggled_elem_of (sel : list string) (v x : string) :
  x ∈ toggled sel v → x = v ∨ x ∈ sel.
Proof.
  unfold toggled. destruct (Z.leb_spec 0 (indexOf sel v)) as [Hhit | Hmiss].
  - rewrite splice1_delete. intros Hx%list_elem_of_delete_inv. by right.
  - intros [Hx | ->%list_elem_of_singleton]%elem_of_app; [by right | by left].
Qed.

(** Toggling flips the membership of the toggled value and of no
    other; a value that is added comes last. *)
Lemma toggled_flips (sel : list string) (v : string) :
  NoDup sel →
  (v ∈ toggled sel v ↔ v ∉ sel) ∧
  (∀ x, x ≠ v → x ∈ toggled sel v ↔ x ∈ sel) ∧
  (v ∉ sel → toggled sel v = (sel ++ [v])%list).
Proof.
  intros Hnd. unfold toggled.
  destruct (Z.leb_spec 0 (indexOf sel v)) as [Hhit | Hmiss].
  - pose proof (indexOf_hit sel v Hhit) as Hat.
    assert (v ∈ sel) as Hin by by eapply list_elem_of_lookup_2.
    rewrite splice1_delete, delete_take_drop.
    pose proof (take_drop_middle sel _ v Hat) as Hsplit.
    rewrite <- Hsplit in Hnd.
    apply NoDup_app in Hnd as (_ & Hfront & [Hback _]%NoDup_cons).
    split; [|split].
    + split; [|done]. intros [Hx | Hx]%elem_of_app; [|done].
      exfalso. apply (Hfront v Hx). by left.
    + intros x Hne. split; intros Hx.
      * rewrite <- Hsplit. rewrite elem_of_app, elem_of_cons.
        apply elem_of_app in Hx as [Hx | Hx]; [by left | by right; right].
      * rewrite <- Hsplit in Hx. rewrite elem_of_app, elem_of_cons in Hx.
        apply elem_of_app. destruct Hx as [Hx | [Hx | Hx]]; [by left | done | by right].
    + done.
  - assert (v ∉ sel) as Hout by (apply indexOf_miss; lia).
    split; [|split].
    + split; [done|]. intros _. apply elem_of_app. right. by left.
    + intros x Hne. rewrite elem_of_app, list_elem_of_singleton.
      split; [intros [Hx | Hx]; done | by left].
    + done.
Qed.




(** ** Invariants of the selections *)

Section Selections.
Context `{Host}.

(** X1: after any run from the constructor, no response lists a
    selected value twice. *)
Theorem selection_has_no_duplicates (ttl : string) (ts : list TabConfig)
    (es : list Event) :
  ∃ f, run es (new_form ttl ts) = Ok f ∧
       map_Forall (λ _ r, NoDup (selected r)) (responses f).
Proof.
  apply (responses_invariant (λ r, NoDup (selected r))).
  - apply NoDup_nil_2.
  - intros f tab r' Hall [input _ _ | o _ _ | o r _ _ Hr]; cbn.
    + apply NoDup_nil_2.
    + apply NoDup_singleton.
    + apply toggled_NoDup. exact (Hall _ _ Hr).
Qed.

(** X2: in a form with distinct tab ids, after any run from the
    constructor the response of a single-selection tab holds at most
    one selected value. *)
Theorem single_selection_at_most_one (ttl : string) (ts : list TabConfig)
    (es : list Event) :
  NoDup (map id ts) →
  ∃ f, run es (new_form ttl ts) = Ok f ∧
       ∀ tab r, tab ∈ ts → responses f !! id tab = Some r →
                selectionType tab = single → (length (selected r) ≤ 1)%nat.
Proof.
  intros Hnd.
  apply (tab_responses_invariant
           (λ tab r, selectionType tab = single → (length (selected r) ≤ 1)%nat));
    [done | cbn; lia |].
  intros f tab r' _ [input _ _ | o _ _ | o r _ Hmulti _] Hsingle; cbn;
    [lia | lia | congruence].
Qed.

(** X3: in a form with distinct tab ids, after any run from the
    constructor every selected value of a tab is the value of one of
    the tab's options. *)
Theorem selected_values_are_options (ttl : string) (ts : list TabConfig)
    (es : list Event) :
  NoDup (map id ts) →
  ∃ f, run es (new_form ttl ts) = Ok f ∧
       ∀ tab r, tab ∈ ts → responses f !! id tab = Some r →
                ∀ v, v ∈ selected r → v ∈ map value (options tab).
Proof.
  intros Hnd.
  apply (tab_responses_invariant
           (λ tab r, ∀ v, v ∈ selected r → v ∈ map value (options tab)));
    [done | by intros tab v ?%elem_of_nil |].
  intros f tab r' Hold [input _ _ | o Ho _ | o r Ho _ Hr] v; cbn.
  - by intros ?%elem_of_nil.
  - intros ->%list_elem_of_singleton. by apply list_elem_of_fmap_2.
  - intros [-> | Hv]%toggled_elem_of; [by apply list_elem_of_fmap_2|].
    by apply (Hold r Hr).
Qed.


(** X5: Enter or Space on an option of a multiple-selection tab flips
    the membership of that option's value in the selection, keeps the
    membership of every other value, appends a newly selected value at
    the end, and clears the custom text. *)
Theorem toggle_flips_membership (data : string) (f : InteractiveForm)
    (tab : TabConfig) (o : OptionConfig) (r : TabResponse) :
  browsing f tab → selection_key data →
  selectionType tab = multiple →
  js_index (options tab) (default 0 (optionCursor f !! id tab)) = Some o →
  responses f !! id tab = Some r → NoDup (selected r) →
  ∃ f' r', handleInput data f = Ok f' ∧
           responses f' !! id tab = Some r' ∧
           customText r' = None ∧
           (value o ∈ selected r' ↔ value o ∉ selected r) ∧
           (∀ x, x ≠ value o → x ∈ selected r' ↔ x ∈ selected r) ∧
           (value o ∉ selected r → selected r' = (selected r ++ [value o])%list).
Proof.
  intros [Htab Hmode] [(He1 & He2 & He3 & He4 & He5 & He6 & He7) Hsel]
    Hmulti Ho Hr Hnd.
  unfold handleInput. rewrite Htab. cbn.
  rewrite Hmode, He1, He2, He3, He4, He5, He6, He7, Hsel. cbn.
  apply js_index_Some in Htab as [_ Hidx].
  rewrite (proj2 (Z.eqb_neq _ _)) by lia.
  pose proof (proj2 (js_index_Some _ _ _ Ho)) as Hcur.
  rewrite (proj2 (Z.eqb_neq (default 0 (optionCursor f !! id tab)) _)) by lia.
  rewrite andb_false_r, Ho, Hr, Hmulti. cbn.
  eexists _, _. split; [reflexivity|]. cbn.
  split; [apply lookup_insert_eq|]. split; [reflexivity|]. cbn.
  exact (toggled_flips (selected r) (value o) Hnd).
Qed.

End Selections.

(** ** Navigation, capture and completion *)

Section Navigation.
Context `{Host}.

Lemma set_focused_frame (v : bool) (f : InteractiveForm) :
  tabs (set_focused v f) = tabs f ∧
  currentTabIndex (set_focused v f) = currentTabIndex f ∧
  responses (set_focused v f) = responses f ∧
  optionCursor (set_focused v f) = optionCursor f ∧
  customInputMode (set_focused v f) = customInputMode f ∧
  cachedWidth (set_focused v f) = cachedWidth f ∧
  cachedLines (set_focused v f) = cachedLines f ∧
  doneCalls (set_focused v f) = doneCalls f.
Proof. unfold set_focused. cbn. by repeat case_match. Qed.

Lemma handleInput_index (data : string) (f f' : InteractiveForm) :
  0 ≤ currentTabIndex f ≤ js_length (tabs f) →
  handleInput data f = Ok f' →
  0 ≤ currentTabIndex f' ≤ js_length (tabs f').
Proof.
  intros Hrange. handle_cases f tab Htab; intros [= <-]; cbn; lia.
Qed.

(** X6: after any run from the constructor the tab index lies between
    0 and the number of tabs, the latter being the summary view. *)
Theorem tab_index_in_range (ttl : string) (ts : list TabConfig) (es : list Event) :
  ∃ f, run es (new_form ttl ts) = Ok f ∧
       0 ≤ currentTabIndex f ≤ js_length ts.
Proof.
  destruct (run_invariant
              (λ g, populated g ∧ tabs g = ts ∧
                    0 ≤ currentTabIndex g ≤ js_length (tabs g)))
    with (es := es) (f := new_form ttl ts) as (f & Hrun & _ & Htabs & Hrange).
  - intros e g (Hp & Htabs & Hrange).
    destruct (step_populated e g Hp) as (g' & He & Hp' & Ht').
    exists g'. split; [done|]. split; [done|]. split; [congruence|].
    destruct e as [data| |width| |v]; cbn in He.
    + by eapply handleInput_index.
    + by injection He as <-.
    + injection He as <-.
      by destruct (render_state width g) as [-> | (ls & _ & ->)].
    + by injection He as <-.
    + injection He as <-.
      destruct (set_focused_frame v g) as (-> & -> & _). done.
  - split; [apply new_form_populated|]. split; [apply new_form_tabs|].
    unfold new_form.
    destruct (init_tabs_frame ts
      {| title := ttl; tabs := ts; currentTabIndex := 0;
         responses := ∅; optionCursor := ∅; customInputMode := ∅;
         customInputs := ∅; cachedWidth := None; cachedLines := None;
         _focused := false; doneCalls := []; renderRequests := 0%nat |})
      as (_ & -> & -> & _).
    cbn. unfold js_length. lia.
  - exists f. split; [done|]. by rewrite <- Htabs.
Qed.



(** X8: [handleInput] changes no dictionary entry of any tab but the
    one being shown, and it never changes the tabs. *)
Theorem handleInput_touches_current_tab_only (data : string)
    (f f' : InteractiveForm) (tab : TabConfig) (k : string) :
  handleInput data f = Ok f' →
  js_index (tabs f) (currentTabIndex f) = Some tab → k ≠ id tab →
  tabs f' = tabs f ∧
  responses f' !! k = responses f !! k ∧
  optionCursor f' !! k = optionCursor f !! k ∧
  customInputMode f' !! k = customInputMode f !! k ∧
  customInputs f' !! k = customInputs f !! k.
Proof.
  handle_cases f tab0 Htab; [..|by intros _ ?].
  all: intros [= <-] [= <-] Hne; cbn; by rewrite ?lookup_insert_ne.
Qed.

Lemma handleInput_cancels (data : string) (f f' : InteractiveForm) :
  handleInput data f = Ok f' →
  doneCalls f' = doneCalls f ∨ doneCalls f' = (doneCalls f ++ [None])%list.
Proof. handle_cases f tab Htab; intros [= <-]; cbn; eauto. Qed.

(** X9: no run from the constructor ever passes a responses result to
    the completion callback: every invocation carries the cancellation
    marker.  (The submit branch of [handleInput] lies behind the early
    return on the undefined current tab.) *)
Theorem done_only_cancels (ttl : string) (ts : list TabConfig) (es : list Event) :
  ∃ f, run es (new_form ttl ts) = Ok f ∧
       Forall (λ r, r = None) (doneCalls f).
Proof.
  destruct (run_invariant
              (λ g, populated g ∧ Forall (λ r, r = None) (doneCalls g)))
    with (es := es) (f := new_form ttl ts) as (f & Hrun & _ & Hall).
  - intros e g (Hp & Hall).
    destruct (step_populated e g Hp) as (g' & He & Hp' & _).
    exists g'. split; [done|]. split; [done|].
    destruct e as [data| |width| |v]; cbn in He.
    + destruct (handleInput_cancels data g g' He) as [-> | ->]; [done|].
      apply Forall_app. split; [done | by constructor].
    + injection He as <-. cbn. apply Forall_app. split; [done | by constructor].
    + injection He as <-.
      by destruct (render_state width g) as [-> | (ls & _ & ->)].
    + by injection He as <-.
    + injection He as <-.
      destruct (set_focused_frame v g) as (_ & _ & _ & _ & _ & _ & _ & ->). done.
  - split; [apply new_form_populated|]. rewrite new_form_doneCalls. constructor.
  - by exists f.
Qed.

End Navigation.

(** ** The render cache *)

Section Cache.
Context `{Host}.

(** X10: a call of [handleInput] leaves the form as it is, or only
    invokes the completion callback with the cancellation marker, or
    else drops the render cache and requests exactly one render. *)
Theorem mutation_clears_cache (data : string) (f f' : InteractiveForm) :
  handleInput data f = Ok f' →
  f' = f ∨ f' = call_done None f ∨
  (cachedWidth f' = None ∧ cachedLines f' = None ∧
   renderRequests f' = S (renderRequests f) ∧ doneCalls f' = doneCalls f).
Proof.
  handle_cases f tab Htab; intros [= <-]; cbn;
    first [by left | by right; left | by right; right].
Qed.

Lemma handleInput_view (data : string) (f f' : InteractiveForm) :
  handleInput data f = Ok f' →
  (same_view f f' ∧ cachedWidth f' = cachedWidth f ∧ cachedLines f' = cachedLines f) ∨
  (cachedWidth f' = None ∧ cachedLines f' = None).
Proof.
  handle_cases f tab Htab; intros [= <-]; cbn;
    first [by left | by right].
Qed.

Lemma hasResponse_same_view (f g : InteractiveForm) (k : string) :
  same_view f g → hasResponse k f = hasResponse k g.
Proof. intros (_ & _ & Hr & _). unfold hasResponse. by rewrite Hr. Qed.

Lemma tabHeaderLoop_same_view (f g : InteractiveForm) (l : list string) (i n : Z) :
  same_view f g → tabHeaderLoop f l i n = tabHeaderLoop g l i n.
Proof.
  intros Hv. pose proof Hv as (Ht & Hi & _).
  revert i. induction l as [|lbl l IH]; intros i; [done|].
  cbn. rewrite IH, Ht, Hi.
  destruct (js_index (tabs g) i) as [tab|]; [|done].
  by rewrite (hasResponse_same_view f g (id tab) Hv).
Qed.

(** [renderLines] reads the tabs, the tab index and the four
    dictionaries, and nothing else of the form. *)
Lemma renderLines_same_view (f g : InteractiveForm) (width : Z) :
  same_view f g → renderLines width f = renderLines width g.
Proof.
  intros Hv. pose proof Hv as (Ht & Hi & Hr & Hc & Hm & Hin).
  unfold renderLines, renderTabHeader.
  rewrite (tabHeaderLoop_same_view f g _ _ _ Hv), Ht, Hi, Hr, Hc, Hm.
  destruct (js_repeat "─" width) as [border|e]; [|done]. cbn.
  replace (map (summaryLine width f) (tabs g)) with (map (summaryLine width g) (tabs g)).
  2: { apply map_ext. intros tab. unfold summaryLine. by rewrite Hr. }
  destruct (currentTabIndex g =? js_length (tabs g)); [done|].
  destruct (js_index (tabs g) (currentTabIndex g)) as [tab|]; [|done].
  unfold customSlotLines. by rewrite Hin.
Qed.

Lemma step_fresh (e : Event) (f f' : InteractiveForm) :
  is_focus e = false → cache_fresh f → step e f = Ok f' → cache_fresh f'.
Proof.
  intros Hnf Hfresh. destruct e as [data| |width| |v]; cbn; [| | | |done].
  - intros [(Hv & Hw & Hl) | (Hw & Hl)]%handleInput_view w ls Hcw Hcl.
    + rewrite <- (renderLines_same_view f f' w Hv). apply Hfresh; congruence.
    + congruence.
  - intros [= <-] w ls Hcw Hcl.
    rewrite <- (renderLines_same_view f (on_abort f) w); [by apply Hfresh | done].
  - intros [= <-]. destruct (render_state width f) as [-> | (ls & Hls & ->)]; [done|].
    intros w ls' [= <-] [= <-].
    by rewrite <- (renderLines_same_view f (set_cache (Some width) (Some ls) f) width).
  - intros [= <-] w ls Hcw. done.
Qed.

(** X11: as long as the focus is not moved, the cached frame after any
    run from the constructor is the frame a fresh render of the same
    width would produce. *)
Theorem cached_frame_is_fresh (ttl : string) (ts : list TabConfig) (es : list Event) :
  forallb (λ e, negb (is_focus e)) es = true →
  ∃ f, run es (new_form ttl ts) = Ok f ∧ cache_fresh f.
Proof.
  intros Hes.
  assert (∀ f, populated f → cache_fresh f →
               ∃ f', run es f = Ok f' ∧ cache_fresh f') as Hrun.
  { clear ttl ts. induction es as [|e es IH]; intros f Hp Hfresh; [by exists f|].
    cbn in Hes. apply andb_true_iff in Hes as [He%negb_true_iff Hes].
    destruct (step_populated e f Hp) as (f1 & Hstep & Hp1 & _).
    destruct (IH Hes f1 Hp1) as (f' & Hrun & Hfresh').
    { by eapply step_fresh. }
    exists f'. split; [|done]. cbn. by rewrite Hstep. }
  apply Hrun; [apply new_form_populated|].
  intros w ls Hcw. unfold new_form in Hcw.
  destruct (init_tabs_frame ts
    {| title := ttl; tabs := ts; currentTabIndex := 0;
       responses := ∅; optionCursor := ∅; customInputMode := ∅;
       customInputs := ∅; cachedWidth := None; cachedLines := None;
       _focused := false; doneCalls := []; renderRequests := 0%nat |})
    as (_ & _ & _ & Hw & _).
  by rewrite Hw in Hcw.
Qed.

Lemma renderLines_negative (width : Z) (f : InteractiveForm) :
  width < 0 → renderLines width f = Throw RangeError.
Proof.
  intros Hw. unfold renderLines, js_repeat.
  by rewrite (proj2 (Z.ltb_lt width 0)).
Qed.

Lemma renderLines_populated (width : Z) (f : InteractiveForm) :
  populated f → 0 ≤ width → ∃ ls, renderLines width f = Ok ls.
Proof.
  intros Hp Hw. unfold renderLines, js_repeat.
  rewrite (proj2 (Z.ltb_ge width 0)) by done. cbn.
  destruct (currentTabIndex f =? js_length (tabs f)); cbn; [eauto|].
  destruct (js_index (tabs f) (currentTabIndex f)) as [tab|] eqn:Htab; cbn; [|eauto].
  apply elem_of_js_index in Htab. destruct (Hp tab Htab) as [_ [input Hin]].
  unfold customSlotLines. rewrite Hin. repeat case_match; cbn; eauto.
Qed.

(** X12: on every state a run reaches from the constructor,
    [render(width)] returns lines when the width is not negative, and
    throws a [RangeError] without changing the form when it is. *)
Theorem render_returns_unless_negative_width (ttl : string) (ts : list TabConfig)
    (es : list Event) (width : Z) :
  ∃ f, run es (new_form ttl ts) = Ok f ∧
       (0 ≤ width → ∃ ls, fst (render width f) = Ok ls) ∧
       (width < 0 → render width f = (Throw RangeError, f)).
Proof.
  destruct (run_invariant
              (λ g, populated g ∧ ∀ w, cachedWidth g = Some w → 0 ≤ w))
    with (es := es) (f := new_form ttl ts) as (f & Hrun & Hp & Hcache).
  - intros e g (Hp & Hcache).
    destruct (step_populated e g Hp) as (g' & He & Hp' & _).
    exists g'. split; [done|]. split; [done|].
    destruct e as [data| |w0| |v]; cbn in He.
    + destruct (handleInput_view data g g' He) as [(_ & -> & _) | (-> & _)]; done.
    + by injection He as <-.
    + injection He as <-.
      destruct (render_state w0 g) as [-> | (ls & Hls & ->)]; [done|].
      cbn. intros w [= <-]. destruct (Z.lt_ge_cases w0 0) as [Hneg|]; [|done].
      by rewrite renderLines_negative in Hls.
    + injection He as <-. by cbn.
    + injection He as <-.
      destruct (set_focused_frame v g) as (_ & _ & _ & _ & _ & -> & _). done.
  - split; [apply new_form_populated|]. intros w Hw. unfold new_form in Hw.
    destruct (init_tabs_frame ts
      {| title := ttl; tabs := ts; currentTabIndex := 0;
         responses := ∅; optionCursor := ∅; customInputMode := ∅;
         customInputs := ∅; cachedWidth := None; cachedLines := None;
         _focused := false; doneCalls := []; renderRequests := 0%nat |})
      as (_ & _ & _ & Hcw & _).
    by rewrite Hcw in Hw.
  - exists f. split; [done|]. unfold render. split.
    + intros Hw. destruct (renderLines_populated width f Hp Hw) as [ls Hls].
      rewrite Hls. destruct (cachedLines f); [case_bool_decide|]; cbn; eauto.
    + intros Hw. rewrite (renderLines_negative width f Hw).
      destruct (cachedLines f); [|done].
      case_bool_decide as Hcw; [|done]. apply Hcache in Hcw. lia.
Qed.

End Cache.

(** ** The transcript of the tool *)

Lemma answerLine_summaryAnswer (tab : TabConfig) (r : TabResponse) :
  answerLine tab (Some r) = "**Answer:** " +:+ summaryAnswer tab (Some r).
Proof.
  unfold answerLine, summaryAnswer.
  destruct (truthy_ostring (customText r)); [done|].
  by destruct (0 <? js_length (selected r)).
Qed.

(** X13: for every tab of a form, in any state a run reaches from the
    constructor, the answer the transcript of [execute] reports for
    the form's responses is the answer the summary view shows; no tab
    is reported as skipped. *)
Theorem transcript_answers_match_summary `{Host} (ttl : string)
    (ts : list TabConfig) (es : list Event) :
  ∃ f, run es (new_form ttl ts) = Ok f ∧
       Forall (λ tab, answerLine tab (responses f !! id tab) =
                      "**Answer:** " +:+ summaryAnswer tab (responses f !! id tab))
              ts.
Proof.
  destruct (run_populated es (new_form ttl ts) (new_form_populated ttl ts))
    as (f & Hrun & Hp & Htabs).
  exists f. split; [done|]. rewrite new_form_tabs in Htabs.
  apply Forall_forall. intros tab Hin. rewrite <- Htabs in Hin.
  destruct (Hp tab Hin) as [[r ->] _]. apply answerLine_summaryAnswer.
Qed.

Lemma concat_tabLines_lookup (result : FormResult) (ts : list TabConfig)
    (i : nat) (tab : TabConfig) :
  ts !! i = Some tab →
  concat (map (tabLines result) ts) !! (4 * i)%nat = Some ("### " +:+ tab_label tab) ∧
  concat (map (tabLines result) ts) !! (4 * i + 1)%nat
    = Some ("**Question:** " +:+ question tab) ∧
  concat (map (tabLines result) ts) !! (4 * i + 2)%nat
    = Some (answerLine tab (result_responses result !! id tab)) ∧
  concat (map (tabLines result) ts) !! (4 * i + 3)%nat = Some "".
Proof.
  revert i. induction ts as [|t ts IH]; intros i Hi; [done|].
  destruct i as [|i].
  - injection Hi as ->. done.
  - cbn in Hi. destruct (IH i Hi) as (H0 & H1 & H2 & H3).
    replace (4 * S i)%nat with (S (S (S (S (4 * i))))) by lia.
    cbn [map concat tabLines app lookup list_lookup Nat.add].
    replace (4 * i + 0)%nat with (4 * i)%nat in * by lia.
    cbn. done.
Qed.

(** X14: the transcript has two heading lines and then four lines per
    tab, in the order of the tabs: the tab's label, its question, its
    answer and an empty line. *)
Theorem transcript_layout (ttl : string) (ts : list TabConfig) (result : FormResult)
    (i : nat) (tab : TabConfig) :
  ts !! i = Some tab →
  length (transcriptLines ttl ts result) = (2 + 4 * length ts)%nat ∧
  transcriptLines ttl ts result !! (2 + 4 * i)%nat = Some ("### " +:+ tab_label tab) ∧
  transcriptLines ttl ts result !! (3 + 4 * i)%nat
    = Some ("**Question:** " +:+ question tab) ∧
  transcriptLines ttl ts result !! (4 + 4 * i)%nat
    = Some (answerLine tab (result_responses result !! id tab)) ∧
  transcriptLines ttl ts result !! (5 + 4 * i)%nat = Some "".
Proof.
  intros Hi. destruct (concat_tabLines_lookup result ts i tab Hi) as (H0 & H1 & H2 & H3).
  unfold transcriptLines. split.
  - cbn. f_equal. f_equal. clear. induction ts as [|t ts IH]; [done|].
    cbn. rewrite IH. lia.
  - replace (3 + 4 * i)%nat with (2 + (4 * i + 1))%nat by lia.
    replace (4 + 4 * i)%nat with (2 + (4 * i + 2))%nat by lia.
    replace (5 + 4 * i)%nat with (2 + (4 * i + 3))%nat by lia.
    cbn. done.
Qed.

(** ** Steps of the state machine *)

Section StepsOfTheMachine.
Context `{Host}.


(** X20: from a tab that is followed by another tab, Tab (or Right)
    and then Shift+Tab (or Left) lead back: the index is the same
    again, and so are the responses, cursors, modes and buffers. *)
Theorem tab_then_back_returns (f : InteractiveForm) (tab next : TabConfig)
    (fwd back : string) :
  browsing f tab →
  js_index (tabs f) (currentTabIndex f + 1) = Some next →
  truthy_obool (customInputMode f !! id next) = false →
  tab_key fwd → back_key back →
  ∃ f1 f2, handleInput fwd f = Ok f1 ∧ handleInput back f1 = Ok f2 ∧
           currentTabIndex f1 = currentTabIndex f + 1 ∧
           same_view f f2.
Proof.
  intros [Htab Hmode] Hnext Hnmode [Hf1 Hf2] (Hb1 & Hb2 & Hb3).
  pose proof (proj2 (js_index_Some _ _ _ Htab)) as Hidx.
  pose proof (proj2 (js_index_Some _ _ _ Hnext)) as Hidx'.
  assert (handleInput fwd f
          = Ok (refresh (set_currentTabIndex (currentTabIndex f + 1) f))) as Hstep1.
  { unfold handleInput. rewrite Htab. cbn. rewrite Hmode, Hf1, Hf2. cbn.
    by rewrite Z.min_l by lia. }
  eexists _, _. split; [exact Hstep1|].
  split; [|split; [reflexivity|]].
  - unfold handleInput. cbn. rewrite Hnext. cbn. rewrite Hnmode, Hb1, Hb2, Hb3. cbn.
    reflexivity.
  - cbn. repeat split. rewrite Z.max_l by lia. cbn. lia.
Qed.

(** X21: Up and Down move the cursor of the tab by one slot and stop
    at the first and at the last slot; Down and then Up, away from the
    last slot, lead back to the slot they started from. *)
Theorem cursor_moves_and_clamps (f : InteractiveForm) (tab : TabConfig)
    (up down : string) (c : Z) :
  browsing f tab → optionCursor f !! id tab = Some c →
  0 ≤ c < optionCount tab → up_key up → down_key down →
  ∃ fu fd, handleInput up f = Ok fu ∧ handleInput down f = Ok fd ∧
           optionCursor fu !! id tab = Some (if c =? 0 then 0 else c - 1) ∧
           optionCursor fd !! id tab
             = Some (if c =? optionCount tab - 1 then c else c + 1) ∧
           (c < optionCount tab - 1 →
            ∃ fdu, handleInput up fd = Ok fdu ∧ optionCursor fdu !! id tab = Some c).
Proof.
  intros [Htab Hmode] Hc Hrange (Hu1 & Hu2 & Hu3 & Hu4) (Hd1 & Hd2 & Hd3 & Hd4 & Hd5).
  pose proof (proj2 (js_index_Some _ _ _ Htab)) as Hidx.
  assert ((currentTabIndex f =? js_length (tabs f)) = false) as Hsub
    by (apply Z.eqb_neq; lia).
  eexists _, _. split; [|split].
  - unfold handleInput. rewrite Htab. cbn. rewrite Hmode, Hu1, Hu2, Hu3, Hsub, Hu4, Hc.
    cbn. reflexivity.
  - unfold handleInput. rewrite Htab. cbn.
    rewrite Hmode, Hd1, Hd2, Hd3, Hsub, Hd4, Hd5, Hc. cbn. reflexivity.
  - cbn. rewrite !lookup_insert_eq. split; [|split].
    + f_equal. destruct (Z.eqb_spec c 0); lia.
    + f_equal. destruct (Z.eqb_spec c (optionCount tab - 1)); lia.
    + intros Hbelow. eexists. split.
      * unfold handleInput. cbn. rewrite Htab. cbn.
        rewrite Hmode, Hu1, Hu2, Hu3, Hsub, Hu4, lookup_insert_eq. cbn. reflexivity.
      * cbn. rewrite lookup_insert_eq. f_equal. lia.
Qed.

(** X22: after any run from the constructor, [hasResponse] holds of a
    tab id exactly when the response stored for it has a selected
    value or a defined custom text. *)
Theorem answered_iff_selected_or_custom (ttl : string) (ts : list TabConfig)
    (es : list Event) :
  ∃ f, run es (new_form ttl ts) = Ok f ∧
       ∀ k r, responses f !! k = Some r →
              (hasResponse k f = true ↔ selected r ≠ [] ∨ is_Some (customText r)).
Proof.
  destruct (responses_invariant
              (λ r, ∀ t, customText r = Some t → truthy_string t = true) ttl ts es)
    as (f & Hrun & Hall).
  - done.
  - intros g tab r' _ [input _ Htext | o _ _ | o r _ _ _] t; cbn; [|done|done].
    by intros [= <-].
  - exists f. split; [done|]. intros k r Hr. specialize (Hall k r Hr). cbn in Hall.
    unfold hasResponse. rewrite Hr. unfold js_length.
    destruct (selected r) as [|v sel]; cbn.
    + destruct (customText r) as [t|]; cbn.
      * rewrite (Hall t eq_refl). split; [intros _; right; eauto | done].
      * split; [done | intros [? | [? ?]]; done].
    + split; [intros _; by left | done].
Qed.

End StepsOfTheMachine.


(** X20 on the two-tab form: Tab from the first tab and Shift+Tab
    back. *)
Lemma tab_then_back_returns_witness :
  browsing twoTabForm colorTab ∧
  js_index (tabs twoTabForm) (currentTabIndex twoTabForm + 1) = Some notesTab ∧
  truthy_obool (customInputMode twoTabForm !! id notesTab) = false ∧
  tab_key (H := ansi_host) (key_sequence Key_tab) ∧
  back_key (H := ansi_host) (key_sequence Key_shift_tab) ∧
  ∃ f1 f2, handleInput (key_sequence Key_tab) twoTabForm = Ok f1 ∧
           handleInput (key_sequence Key_shift_tab) f1 = Ok f2 ∧
           currentTabIndex f1 = currentTabIndex twoTabForm + 1 ∧
           same_view twoTabForm f2.
Proof.
  assert (browsing twoTabForm colorTab) as Hb.
  { split; vm_compute; reflexivity. }
  assert (js_index (tabs twoTabForm) (currentTabIndex twoTabForm + 1) = Some notesTab)
    as Hnext by (vm_compute; reflexivity).
  assert (truthy_obool (customInputMode twoTabForm !! id notesTab) = false)
    as Hmode by (vm_compute; reflexivity).
  assert (tab_key (H := ansi_host) (key_sequence Key_tab)) as Hfwd.
  { split; vm_compute; reflexivity. }
  assert (back_key (H := ansi_host) (key_sequence Key_shift_tab)) as Hback.
  { repeat split; vm_compute; reflexivity. }
  split; [exact Hb|]. split; [exact Hnext|]. split; [exact Hmode|].
  split; [exact Hfwd|]. split; [exact Hback|].
  exact (tab_then_back_returns (H := ansi_host) _ colorTab notesTab _ _
           Hb Hnext Hmode Hfwd Hback).
Defined.

(** X21 on the second tab of the two-tab form, the cursor on its
    first slot. *)
Lemma cursor_moves_and_clamps_witness :
  browsing (after [press Key_tab] twoTabForm) notesTab ∧
  optionCursor (after [press Key_tab] twoTabForm) !! id notesTab = Some 0 ∧
  0 ≤ 0 < optionCount notesTab ∧
  up_key (H := ansi_host) (key_sequence Key_up) ∧
  down_key (H := ansi_host) (key_sequence Key_down) ∧
  ∃ fu fd,
    handleInput (key_sequence Key_up) (after [press Key_tab] twoTabForm) = Ok fu ∧
    handleInput (key_sequence Key_down) (after [press Key_tab] twoTabForm) = Ok fd ∧
    optionCursor fu !! id notesTab = Some (if 0 =? 0 then 0 else 0 - 1) ∧
    optionCursor fd !! id notesTab
      = Some (if 0 =? optionCount notesTab - 1 then 0 else 0 + 1) ∧
    (0 < optionCount notesTab - 1 →
     ∃ fdu, handleInput (key_sequence Key_up) fd = Ok fdu ∧
            optionCursor fdu !! id notesTab = Some 0).
Proof.
  assert (browsing (after [press Key_tab] twoTabForm) notesTab) as Hb.
  { split; vm_compute; reflexivity. }
  assert (optionCursor (after [press Key_tab] twoTabForm) !! id notesTab = Some 0)
    as Hc by (vm_compute; reflexivity).
  assert (0 ≤ 0 < optionCount notesTab) as Hrange by (vm_compute; split; [discriminate | reflexivity]).
  assert (up_key (H := ansi_host) (key_sequence Key_up)) as Hup.
  { repeat split; vm_compute; reflexivity. }
  assert (down_key (H := ansi_host) (key_sequence Key_down)) as Hdown.
  { repeat split; vm_compute; reflexivity. }
  split; [exact Hb|]. split; [exact Hc|]. split; [exact Hrange|].
  split; [exact Hup|]. split; [exact Hdown|].
  exact (cursor_moves_and_clamps (H := ansi_host) _ notesTab _ _ 0
           Hb Hc Hrange Hup Hdown).
Defined.

(** ** The further properties on the terminal host *)

(** X2 on the two-tab form, after the scenario keys. *)
Lemma single_selection_at_most_one_witness :
  NoDup (map id [colorTab; notesTab]) ∧
  ∃ f, run scenario_keys (new_form (H := ansi_host) "Survey" [colorTab; notesTab]) = Ok f ∧
       ∀ tab r, tab ∈ [colorTab; notesTab] → responses f !! id tab = Some r →
                selectionType tab = single → (length (selected r) ≤ 1)%nat.
Proof.
  assert (NoDup (map id [colorTab; notesTab])) as Hnd.
  { apply (bool_decide_unpack _). vm_compute. exact I. }
  split; [exact Hnd|].
  exact (single_selection_at_most_one (H := ansi_host) "Survey" [colorTab; notesTab]
           scenario_keys Hnd).
Defined.

(** X3 on the two-tab form, after the scenario keys. *)
Lemma selected_values_are_options_witness :
  NoDup (map id [colorTab; notesTab]) ∧
  ∃ f, run scenario_keys (new_form (H := ansi_host) "Survey" [colorTab; notesTab]) = Ok f ∧
       ∀ tab r, tab ∈ [colorTab; notesTab] → responses f !! id tab = Some r →
                ∀ v, v ∈ selected r → v ∈ map value (options tab).
Proof.
  assert (NoDup (map id [colorTab; notesTab])) as Hnd.
  { apply (bool_decide_unpack _). vm_compute. exact I. }
  split; [exact Hnd|].
  exact (selected_values_are_options (H := ansi_host) "Survey" [colorTab; notesTab]
           scenario_keys Hnd).
Defined.

(** X5 on the second tab of the two-tab form: Enter on option "a",
    nothing being selected yet. *)
Lemma toggle_flips_membership_witness :
  browsing (after [press Key_tab] twoTabForm) notesTab ∧
  selection_key (H := ansi_host) (key_sequence Key_enter) ∧
  selectionType notesTab = multiple ∧
  js_index (options notesTab)
    (default 0 (optionCursor (after [press Key_tab] twoTabForm) !! id notesTab))
    = Some (opt "a") ∧
  responses (after [press Key_tab] twoTabForm) !! id notesTab
    = Some {| selected := []; customText := None |} ∧
  NoDup (selected {| selected := []; customText := None |}) ∧
  ∃ f' r', handleInput (key_sequence Key_enter) (after [press Key_tab] twoTabForm)
             = Ok f' ∧
           responses f' !! id notesTab = Some r' ∧
           customText r' = None ∧
           (value (opt "a") ∈ selected r' ↔ value (opt "a") ∉ []) ∧
           (∀ x, x ≠ value (opt "a") → x ∈ selected r' ↔ x ∈ []) ∧
           (value (opt "a") ∉ [] → selected r' = ([] ++ [value (opt "a")])%list).
Proof.
  assert (browsing (after [press Key_tab] twoTabForm) notesTab) as Hb.
  { split; vm_compute; reflexivity. }
  assert (selection_key (H := ansi_host) (key_sequence Key_enter)) as Hsel.
  { repeat split; vm_compute; reflexivity. }
  assert (selectionType notesTab = multiple) as Hmulti by reflexivity.
  assert (js_index (options notesTab)
            (default 0 (optionCursor (after [press Key_tab] twoTabForm) !! id notesTab))
          = Some (opt "a")) as Ho.
  { vm_compute. reflexivity. }
  assert (responses (after [press Key_tab] twoTabForm) !! id notesTab
          = Some {| selected := []; customText := None |}) as Hr.
  { vm_compute. reflexivity. }
  assert (NoDup (selected {| selected := []; customText := None |})) as Hnd.
  { cbn. constructor. }
  split; [exact Hb|]. split; [exact Hsel|]. split; [exact Hmulti|].
  split; [exact Ho|]. split; [exact Hr|]. split; [exact Hnd|].
  exact (toggle_flips_membership (H := ansi_host) _ _ notesTab (opt "a") _
           Hb Hsel Hmulti Ho Hr Hnd).
Defined.

(** X8 on the second tab of the two-tab form: the digit 1 selects "a"
    and leaves the entries of the first tab alone. *)
Lemma handleInput_touches_current_tab_only_witness :
  handleInput (digitKey 1) (after [press Key_tab] twoTabForm)
    = Ok (after [EInput (digitKey 1)] (after [press Key_tab] twoTabForm)) ∧
  js_index (tabs (after [press Key_tab] twoTabForm))
    (currentTabIndex (after [press Key_tab] twoTabForm)) = Some notesTab ∧
  "Color" ≠ id notesTab ∧
  tabs (after [EInput (digitKey 1)] (after [press Key_tab] twoTabForm))
    = tabs (after [press Key_tab] twoTabForm) ∧
  responses (after [EInput (digitKey 1)] (after [press Key_tab] twoTabForm)) !! "Color"
    = responses (after [press Key_tab] twoTabForm) !! "Color" ∧
  optionCursor (after [EInput (digitKey 1)] (after [press Key_tab] twoTabForm)) !! "Color"
    = optionCursor (after [press Key_tab] twoTabForm) !! "Color" ∧
  customInputMode (after [EInput (digitKey 1)] (after [press Key_tab] twoTabForm)) !! "Color"
    = customInputMode (after [press Key_tab] twoTabForm) !! "Color" ∧
  customInputs (after [EInput (digitKey 1)] (after [press Key_tab] twoTabForm)) !! "Color"
    = customInputs (after [press Key_tab] twoTabForm) !! "Color".
Proof.
  assert (handleInput (digitKey 1) (after [press Key_tab] twoTabForm)
          = Ok (after [EInput (digitKey 1)] (after [press Key_tab] twoTabForm))) as Hstep.
  { rewrite <- run_single. apply run_after. vm_compute. reflexivity. }
  assert (js_index (tabs (after [press Key_tab] twoTabForm))
            (currentTabIndex (after [press Key_tab] twoTabForm)) = Some notesTab) as Htab.
  { vm_compute. reflexivity. }
  assert ("Color" ≠ id notesTab) as Hne.
  { vm_compute. discriminate. }
  split; [exact Hstep|]. split; [exact Htab|]. split; [exact Hne|].
  exact (handleInput_touches_current_tab_only (H := ansi_host) _ _ _ notesTab "Color"
           Hstep Htab Hne).
Defined.

(** X10 on the two-tab form: Down moves the cursor, drops the cache
    and requests a render. *)
Lemma mutation_clears_cache_witness :
  handleInput (key_sequence Key_down) twoTabForm
    = Ok (after [press Key_down] twoTabForm) ∧
  (after [press Key_down] twoTabForm = twoTabForm ∨
   after [press Key_down] twoTabForm = call_done None twoTabForm ∨
   (cachedWidth (after [press Key_down] twoTabForm) = None ∧
    cachedLines (after [press Key_down] twoTabForm) = None ∧
    renderRequests (after [press Key_down] twoTabForm) = S (renderRequests twoTabForm) ∧
    doneCalls (after [press Key_down] twoTabForm) = doneCalls twoTabForm)).
Proof.
  assert (handleInput (key_sequence Key_down) twoTabForm
          = Ok (after [press Key_down] twoTabForm)) as Hstep.
  { rewrite <- run_single. apply run_after. vm_compute. reflexivity. }
  split; [exact Hstep|].
  exact (mutation_clears_cache (H := ansi_host) _ _ _ Hstep).
Defined.

(** X11 on the two-tab form: a frame, a key, and two more frames. *)
Lemma cached_frame_is_fresh_witness :
  forallb (λ e, negb (is_focus e))
    [ERender 40; press Key_down; ERender 40; ERender 20] = true ∧
  ∃ f, run [ERender 40; press Key_down; ERender 40; ERender 20]
         (new_form (H := ansi_host) "Survey" [colorTab; notesTab]) = Ok f ∧
       cache_fresh f.
Proof.
  assert (forallb (λ e, negb (is_focus e))
            [ERender 40; press Key_down; ERender 40; ERender 20] = true) as Hes
    by reflexivity.
  split; [exact Hes|].
  exact (cached_frame_is_fresh (H := ansi_host) "Survey" [colorTab; notesTab] _ Hes).
Defined.

(** X14 for the second tab of the two-tab form and an empty result. *)
Lemma transcript_layout_witness :
  [colorTab; notesTab] !! 1%nat = Some notesTab ∧
  length (transcriptLines "Survey" [colorTab; notesTab] {| result_responses := ∅ |})
    = (2 + 4 * length [colorTab; notesTab])%nat ∧
  transcriptLines "Survey" [colorTab; notesTab] {| result_responses := ∅ |}
    !! (2 + 4 * 1)%nat = Some ("### " +:+ tab_label notesTab) ∧
  transcriptLines "Survey" [colorTab; notesTab] {| result_responses := ∅ |}
    !! (3 + 4 * 1)%nat = Some ("**Question:** " +:+ question notesTab) ∧
  transcriptLines "Survey" [colorTab; notesTab] {| result_responses := ∅ |}
    !! (4 + 4 * 1)%nat
    = Some (answerLine notesTab
              (result_responses {| result_responses := ∅ |} !! id notesTab)) ∧
  transcriptLines "Survey" [colorTab; notesTab] {| result_responses := ∅ |}
    !! (5 + 4 * 1)%nat = Some "".
Proof.
  assert ([colorTab; notesTab] !! 1%nat = Some notesTab) as Hi by reflexivity.
  split; [exact Hi|].
  exact (transcript_layout "Survey" [colorTab; notesTab] {| result_responses := ∅ |}
           1%nat notesTab Hi).
Defined.

(** * The todo tracker *)

Module TodoTrackerFacts.
Import TodoTracker.

Lemma set_status_ids (i : Z) (st : Status) (l : list Todo) :
  map id (set_status i st l) = map id l.
Proof.
  induction l as [|t l IH]; [done|]. cbn.
  destruct (id t =? i); cbn; [done | by rewrite IH].
Qed.

Lemma set_status_Forall (P : Z → Prop) (i : Z) (st : Status) (l : list Todo) :
  Forall (λ t, P (id t)) l → Forall (λ t, P (id t)) (set_status i st l).
Proof.
  induction 1 as [|t l Ht Hl IH]; cbn; [constructor|].
  destruct (id t =? i); by constructor.
Qed.

Lemma set_status_length (i : Z) (st : Status) (l : list Todo) :
  length (set_status i st l) = length l.
Proof. by rewrite <- (length_map id), set_status_ids, length_map. Qed.

(** [set_status] changes the todo that [find] returns, and no other. *)
Lemma set_status_lookup (i : Z) (st : Status) (l : list Todo) (k : nat) (t : Todo) :
  l !! k = Some t →
  set_status i st l !! k = Some t ∨
  (List.find (λ t, id t =? i) l = Some t ∧
   set_status i st l !! k = Some (with_status st t)).
Proof.
  revert k. induction l as [|x l IH]; intros k Hk; [done|]. cbn.
  destruct (id x =? i) eqn:Hx.
  - destruct k as [|k]; cbn in *; [|by left]. injection Hk as ->. by right.
  - destruct k as [|k]; cbn in *; [by left|]. by apply IH.
Qed.

Lemma find_set_status (i : Z) (st : Status) (l : list Todo) :
  List.find (λ t, id t =? i) (set_status i st l)
  = with_status st <$> List.find (λ t, id t =? i) l.
Proof.
  induction l as [|x l IH]; [done|]. cbn.
  destruct (id x =? i) eqn:Hx; cbn; by rewrite Hx.
Qed.

Lemma apply_ids_fresh (op : Op) (s : TodoState) :
  ids_fresh s → ids_fresh (apply op s).
Proof.
  intros (Hnd & Hall & Hnext). destruct op as [txt|i|i|]; cbn.
  - split; [|split]; cbn.
    + rewrite map_app. apply NoDup_app. split; [done|]. split; [|apply NoDup_singleton].
      intros x (t & -> & Ht)%list_elem_of_fmap Heq%list_elem_of_singleton.
      rewrite Forall_forall in Hall. specialize (Hall t Ht). cbn in Heq. lia.
    + apply Forall_app. split.
      * eapply Forall_impl; [done|]. cbn. intros t Ht. lia.
      * constructor; [cbn; lia | constructor].
    + lia.
  - unfold startTodo. destruct (List.find _ (todos s)) as [todo|]; [|done].
    destruct (status todo); try done. split; [|split]; cbn; [| |done].
    + by rewrite set_status_ids.
    + by apply (set_status_Forall (λ x, 1 ≤ x < nextId s)).
  - unfold completeTodo. destruct (List.find _ (todos s)) as [todo|]; [|done].
    destruct (status todo); try done; (split; [|split]; cbn; [| |done]).
    all: first
      [ by rewrite set_status_ids
      | by apply (set_status_Forall (λ x, 1 ≤ x < nextId s)) ].
  - split; [|split]; cbn; [constructor | constructor | lia].
Qed.

(** X15: after any sequence of operations on the initial state, the
    ids of the todos are pairwise distinct and lie between 1 and the
    next id to be given out. *)
Theorem todo_ids_unique_and_fresh (ops : list Op) :
  NoDup (map id (todos (applyAll ops state))) ∧
  Forall (λ t, 1 ≤ id t < nextId (applyAll ops state)) (todos (applyAll ops state)).
Proof.
  assert (∀ s, ids_fresh s → ids_fresh (applyAll ops s)) as Hall.
  { induction ops as [|op ops IH]; intros s Hs; [done|].
    cbn. apply IH. by apply apply_ids_fresh. }
  destruct (Hall state) as (Hnd & Hids & _); [|done].
  split; [|split]; cbn; [constructor | constructor | lia].
Qed.

Lemma apply_advances (op : Op) (s : TodoState) (k : nat) (t : Todo) :
  is_clear op = false → todos s !! k = Some t →
  ∃ t', todos (apply op s) !! k = Some t' ∧ id t' = id t ∧ text t' = text t ∧
        (rank (status t) ≤ rank (status t'))%nat.
Proof.
  intros Hop Hk. destruct op as [txt|i|i|]; cbn; [| | |done].
  - exists t. split; [by apply lookup_app_l_Some | done].
  - unfold startTodo. destruct (List.find _ (todos s)) as [todo|] eqn:Hfind; [|by exists t].
    destruct (status todo) eqn:Hst; try by exists t.
    cbn. destruct (set_status_lookup i in_progress _ k t Hk) as [Hsame | [Hfirst Hnew]].
    + by exists t.
    + exists (with_status in_progress t). split; [done|]. cbn.
      rewrite Hfind in Hfirst. injection Hfirst as ->. rewrite Hst. cbn. split; [done|].
      split; [done | lia].
  - unfold completeTodo.
    destruct (List.find _ (todos s)) as [todo|] eqn:Hfind; [|by exists t].
    destruct (status todo) eqn:Hst; try (by exists t); cbn;
      (destruct (set_status_lookup i completed _ k t Hk) as [Hsame | [Hfirst Hnew]];
       [ by exists t
       | exists (with_status completed t); split; [done|]; cbn;
         split; [done|]; split; [done|]; destruct (status t); cbn; lia ]).
Qed.

(** X16: operations other than clear never remove or reorder a todo
    and never change its id or text, and its status only advances from
    pending through in progress to completed. *)
Theorem todos_only_advance (ops : list Op) (s : TodoState) (k : nat) (t : Todo) :
  forallb (λ op, negb (is_clear op)) ops = true →
  todos s !! k = Some t →
  ∃ t', todos (applyAll ops s) !! k = Some t' ∧ id t' = id t ∧ text t' = text t ∧
        (rank (status t) ≤ rank (status t'))%nat.
Proof.
  revert s t. induction ops as [|op ops IH]; intros s t Hops Hk.
  - exists t. by split.
  - cbn in Hops. apply andb_true_iff in Hops as [Hop%negb_true_iff Hops].
    destruct (apply_advances op s k t Hop Hk) as (t1 & Hk1 & Hid1 & Htext1 & Hrank1).
    destruct (IH (apply op s) t1 Hops Hk1) as (t' & Hk' & Hid' & Htext' & Hrank').
    exists t'. split; [done|]. split; [congruence|]. split; [congruence | lia].
Qed.

(** X16 on a list of one pending todo: it is started, another todo is
    added, and it is completed. *)
Lemma todos_only_advance_witness :
  forallb (λ op, negb (is_clear op)) [OpStart 1; OpAdd "b"; OpComplete 1] = true ∧
  todos (snd (addTodo "a" state)) !! 0%nat
    = Some {| id := 1; text := "a"; status := pending |} ∧
  ∃ t', todos (applyAll [OpStart 1; OpAdd "b"; OpComplete 1] (snd (addTodo "a" state)))
          !! 0%nat = Some t' ∧
        id t' = 1 ∧ text t' = "a" ∧ (rank pending ≤ rank (status t'))%nat.
Proof.
  assert (forallb (λ op, negb (is_clear op)) [OpStart 1; OpAdd "b"; OpComplete 1] = true)
    as Hops by reflexivity.
  assert (todos (snd (addTodo "a" state)) !! 0%nat
          = Some {| id := 1; text := "a"; status := pending |}) as Hk by reflexivity.
  split; [exact Hops|]. split; [exact Hk|].
  exact (todos_only_advance _ _ 0%nat _ Hops Hk).
Defined.

(** X17: a todo is started and completed once: completing an id a
    second time, starting it a second time, or starting it after it
    was completed returns no todo and leaves the state as it is. *)
Theorem todo_transitions_do_not_repeat (i : Z) (s : TodoState) :
  completeTodo i (snd (completeTodo i s)) = (None, snd (completeTodo i s)) ∧
  startTodo i (snd (startTodo i s)) = (None, snd (startTodo i s)) ∧
  startTodo i (snd (completeTodo i s)) = (None, snd (completeTodo i s)).
Proof.
  split; [|split].
  - unfold completeTodo at 2 3.
    destruct (List.find _ (todos s)) as [todo|] eqn:Hfind.
    + destruct (status todo) eqn:Hst; cbn; unfold completeTodo; cbn;
        rewrite ?find_set_status, Hfind; cbn; by rewrite ?Hst.
    + cbn. unfold completeTodo. by rewrite Hfind.
  - unfold startTodo at 2 3.
    destruct (List.find _ (todos s)) as [todo|] eqn:Hfind.
    + destruct (status todo) eqn:Hst; cbn; unfold startTodo; cbn;
        rewrite ?find_set_status, Hfind; cbn; by rewrite ?Hst.
    + cbn. unfold startTodo. by rewrite Hfind.
  - unfold completeTodo.
    destruct (List.find _ (todos s)) as [todo|] eqn:Hfind.
    + destruct (status todo) eqn:Hst; cbn; unfold startTodo; cbn;
        rewrite ?find_set_status, Hfind; cbn; by rewrite ?Hst.
    + cbn. unfold startTodo. by rewrite Hfind.
Qed.



End TodoTrackerFacts.
